(** * NYOWORKS CLI: task locks and feature flags

    A shallow embedding of [cli/nyoworks.py]: the state file, the
    [task claim | release | locks | unlock] branches of [cmd_task] and the
    [feature enable | disable] branches of [cmd_feature], together with the
    properties of the task-lock table that the project documentation states.
    Further on: [cmd_phase], [feature list], [task create], [decision add]
    and the text that [print_table] writes.  Left out are the commands that
    print values of the state file through [str] ([status], [task list],
    [decision list]) or read other files ([feature info], [bible]), and the
    argument parser.

    Conventions of the embedding.
    - A Python [dict] is an insertion-ordered association list with unique
      keys ([Dict]); a Python [list] is a [list].
    - A [datetime] is the number of microseconds since [datetime.min]; the
      state file stores its [isoformat()] text, which is one-to-one with the
      value, so the embedding keeps the value.  The clock reading
      [datetime.now()] is a parameter of the commands; it is taken to lie
      more than thirty minutes before [datetime.max], so that adding the
      lease duration does not overflow.
    - A text is held as its UTF-8 bytes; where the program measures a text
      with [len] or pads it, the embedding counts characters ([str_len]).
    - A command runs in a [World]: the content of [.nyoworks/state.json] and
      the trace of what the command printed and saved. *)

From Stdlib Require Import ZArith List String Bool Lia.
From Stdlib Require Import DecimalString DecimalNat.
Import ListNotations.

Open Scope string_scope.
Open Scope Z_scope.

(* ------------------------------------------------------------------------- *)
(** ** Python dictionaries *)
(* ------------------------------------------------------------------------- *)

Module Dict.

Section Ops.

Context {V : Type}.

Definition t := list (string * V).

(** [d.get(k)] / [d[k]]: the binding of [k], when there is one. *)
Fixpoint get (k : string) (d : list (string * V)) : option V :=
  match d with
  | [] => None
  | (k', v) :: r => if String.eqb k k' then Some v else get k r
  end.

(** [k in d]. *)
Definition mem (k : string) (d : list (string * V)) : bool :=
  match get k d with
  | Some _ => true
  | None => false
  end.

(** [d[k] = v]: an existing key keeps its position, a new key goes last. *)
Fixpoint set (k : string) (v : V) (d : list (string * V)) : list (string * V) :=
  match d with
  | [] => [(k, v)]
  | (k', v') :: r =>
      if String.eqb k k' then (k, v) :: r else (k', v') :: set k v r
  end.

(** [del d[k]] (the callers test [k in d] first). *)
Fixpoint del (k : string) (d : list (string * V)) : list (string * V) :=
  match d with
  | [] => []
  | (k', v') :: r =>
      if String.eqb k k' then del k r else (k', v') :: del k r
  end.

(** [d.keys()] and [d.values()], in insertion order. *)
Definition keys (d : list (string * V)) : list string := map fst d.
Definition values (d : list (string * V)) : list V := map snd d.

(** [not d]: the empty dictionary is falsy. *)
Definition is_empty (d : list (string * V)) : bool :=
  match d with
  | [] => true
  | _ :: _ => false
  end.

(** Keys of a dictionary are pairwise distinct. *)
Definition wf (d : list (string * V)) : Prop := NoDup (keys d).

End Ops.

Arguments t : clear implicits.

End Dict.

(* ------------------------------------------------------------------------- *)
(** ** Python lists of strings *)
(* ------------------------------------------------------------------------- *)

(** [x in l]. *)
Fixpoint list_mem (x : string) (l : list string) : bool :=
  match l with
  | [] => false
  | y :: r => if String.eqb x y then true else list_mem x r
  end.

(** [l.append(x)]. *)
Definition list_append (l : list string) (x : string) : list string :=
  l ++ [x].

(** [l.remove(x)]: drops the first occurrence (callers test [x in l]). *)
Fixpoint list_remove (x : string) (l : list string) : list string :=
  match l with
  | [] => []
  | y :: r => if String.eqb x y then r else y :: list_remove x r
  end.

(* ------------------------------------------------------------------------- *)
(** ** Configuration *)
(* ------------------------------------------------------------------------- *)

Definition AVAILABLE_FEATURES : list string :=
  [ "payments"; "appointments"; "inventory"; "crm"; "cms";
    "ecommerce"; "analytics"; "notifications"; "audit"; "export"; "realtime" ].

(* ------------------------------------------------------------------------- *)
(** ** Time *)
(* ------------------------------------------------------------------------- *)

(** Microseconds since [datetime.min]. *)
Definition datetime := Z.

(** [timedelta(minutes=m)], in microseconds. *)
Definition timedelta_minutes (m : Z) : Z := m * 60 * 1000000.

(** [t.isoformat()[:19]]: the text [YYYY-MM-DDTHH:MM:SS], that is the
    timestamp cut to whole seconds (the fraction, when present, starts at
    the twentieth character).  Given as the count of whole seconds. *)
Definition isoformat_19 (t : datetime) : Z := t / 1000000.

(* ------------------------------------------------------------------------- *)
(** ** The state file *)
(* ------------------------------------------------------------------------- *)

(** A value of the state file that no modelled command looks into. *)
#[local] Unset Elimination Schemes.
Inductive json : Type :=
| JNull
| JBool (b : bool)
| JNum (n : Z)
| JStr (s : string)
| JList (l : list json)
| JDict (d : list (string * json)).
#[local] Set Elimination Schemes.

(** An entry of [task_locks], as [task claim] writes it. *)
Record Lease : Type := mkLease {
  task_id : string;
  agent_role : string;
  claimed_at : datetime;
  expires_at : datetime
}.

(** The JSON object of [state.json].  [enabled_features] and [task_locks] are
    the keys the modelled commands read and write; each may be missing.  All
    other keys ([name], [code], [phase], [tasks], [agents], [decisions], ...)
    are kept in [others]. *)
Record State : Type := mkState {
  others : Dict.t json;
  enabled_features : option (list string);
  task_locks : option (Dict.t Lease)
}.

(** [bool(state)]: a dictionary with no key at all is falsy. *)
Definition state_truthy (s : State) : bool :=
  negb (Dict.is_empty (others s))
  || match enabled_features s with Some _ => true | None => false end
  || match task_locks s with Some _ => true | None => false end.

(** [state.get("task_locks", {})]. *)
Definition get_task_locks (s : State) : Dict.t Lease :=
  match task_locks s with
  | Some d => d
  | None => []
  end.

(** [state["task_locks"] = d]. *)
Definition set_task_locks (s : State) (d : Dict.t Lease) : State :=
  {| others := others s;
     enabled_features := enabled_features s;
     task_locks := Some d |}.

(** [state.get("enabled_features", [])]. *)
Definition get_enabled_features (s : State) : list string :=
  match enabled_features s with
  | Some l => l
  | None => []
  end.

(** [state["enabled_features"] = l]. *)
Definition set_enabled_features (s : State) (l : list string) : State :=
  {| others := others s;
     enabled_features := Some l;
     task_locks := task_locks s |}.

(* ------------------------------------------------------------------------- *)
(** ** The world a command runs in *)
(* ------------------------------------------------------------------------- *)

(** Content of [.nyoworks/state.json]. *)
Inductive file_content : Type :=
| NoFile                     (* the file does not exist *)
| Truncated                  (* the file exists and is empty *)
| Doc (s : State).           (* the file holds the JSON text of [s] *)

(** A row of the [task locks] table. *)
Record lock_row : Type := mkRow {
  row_task : string;
  row_agent : string;
  row_claimed : Z;
  row_expires : Z
}.

(** What a command does that can be observed, in order. *)
Inductive event : Type :=
| Stdout (line : string)
| Stderr (line : string)
| Header (text : string)                              (* print_header *)
| Table (headers : list string) (rows : list lock_row) (* print_table *)
| Saved (s : State).                                   (* save_state *)

Record World : Type := mkWorld {
  fs : file_content;
  trace : list event
}.

Definition emit (e : event) (w : World) : World :=
  {| fs := fs w; trace := trace w ++ [e] |}.

Definition print_header (text : string) (w : World) : World :=
  emit (Header text) w.

Definition print_success (text : string) (w : World) : World :=
  emit (Stdout ("[OK] " ++ text)) w.

Definition print_error (text : string) (w : World) : World :=
  emit (Stderr ("[ERROR] " ++ text)) w.

Definition print_info (text : string) (w : World) : World :=
  emit (Stdout ("[INFO] " ++ text)) w.

Definition print_table (headers : list string) (rows : list lock_row)
    (w : World) : World :=
  emit (Table headers rows) w.

(** Exceptions that escape a command. *)
Inductive exn : Type :=
| JSONDecodeError.

Inductive result (A : Type) : Type :=
| Return (a : A)
| Raise (e : exn).

Arguments Return {A} a.
Arguments Raise {A} e.

(** [load_state()]: [None] without a state file, the parsed document
    otherwise; [json.load] raises on a file that holds no document. *)
Definition load_state (w : World) : result (option State) :=
  match fs w with
  | NoFile => Return None
  | Truncated => Raise JSONDecodeError
  | Doc s => Return (Some s)
  end.

(** The file-system steps of [save_state], statement by statement:
    [mkdir(parents=True, exist_ok=True)] on the directory,
    [open(state_file, "w")], which creates the file or cuts it to length
    zero, and [json.dump] up to the close of the [with] block. *)
Inductive fs_step : Type :=
| Mkdir
| OpenW
| Dump (s : State).

Definition fs_exec (f : file_content) (st : fs_step) : file_content :=
  match st with
  | Mkdir => f
  | OpenW => Truncated
  | Dump s => Doc s
  end.

Definition save_state_steps (s : State) : list fs_step :=
  [Mkdir; OpenW; Dump s].

(** The file after the first [n] steps of [save_state(s)] ran and the
    process stopped. *)
Definition save_state_upto (n : nat) (s : State) (f : file_content)
    : file_content :=
  fold_left fs_exec (firstn n (save_state_steps s)) f.

(** [save_state(state)], run to the end. *)
Definition save_state (s : State) (w : World) : World :=
  {| fs := fold_left fs_exec (save_state_steps s) (fs w);
     trace := trace w ++ [Saved s] |}.

(* ------------------------------------------------------------------------- *)
(** ** Commands: Task *)
(* ------------------------------------------------------------------------- *)

(** The parsed arguments of [nyoworks task ...], for the sub-commands on
    locks ([list] and [create] only touch the [tasks] key). *)
Inductive task_args : Type :=
| Claim (id : string) (role : option string)
| Release (id : string)
| Locks
| Unlock (id : string).

(** [args.role or "manual"]: a missing role and an empty one are falsy. *)
Definition role_or_manual (role : option string) : string :=
  match role with
  | Some r => if String.eqb r "" then "manual" else r
  | None => "manual"
  end.

(** [[l["task_id"], l["agent_role"], l["claimed_at"][:19], l["expires_at"][:19]]]. *)
Definition row_of_lease (l : Lease) : lock_row :=
  {| row_task := task_id l;
     row_agent := agent_role l;
     row_claimed := isoformat_19 (claimed_at l);
     row_expires := isoformat_19 (expires_at l) |}.

Definition locks_headers : list string :=
  ["Task"; "Agent"; "Claimed At"; "Expires At"].

(** The [claim] branch of [cmd_task]. *)
Definition task_claim (state : State) (id : string) (role : option string)
    (now : datetime) (w : World) : result Z * World :=
  let locks := get_task_locks state in
  match Dict.get id locks with
  | Some l =>
      (Return 1, print_error ("Task already claimed by " ++ agent_role l) w)
  | None =>
      let expires := now + timedelta_minutes 30 in
      let locks' :=
        Dict.set id
          {| task_id := id;
             agent_role := role_or_manual role;
             claimed_at := now;
             expires_at := expires |} locks in
      let state' := set_task_locks state locks' in
      let w := save_state state' w in
      (Return 0, print_success ("Claimed task " ++ id) w)
  end.

(** The [release] branch of [cmd_task]. *)
Definition task_release (state : State) (id : string) (w : World)
    : result Z * World :=
  let locks := get_task_locks state in
  if negb (Dict.mem id locks) then
    (Return 1, print_error ("Task " ++ id ++ " is not locked") w)
  else
    let locks' := Dict.del id locks in
    let state' := set_task_locks state locks' in
    let w := save_state state' w in
    (Return 0, print_success ("Released task " ++ id) w).

(** The [locks] branch of [cmd_task]. *)
Definition task_locks_cmd (state : State) (w : World) : result Z * World :=
  let locks := get_task_locks state in
  if Dict.is_empty locks then
    (Return 0, print_info "No active locks." w)
  else
    let w := print_header "Active Task Locks" w in
    let rows := map row_of_lease (Dict.values locks) in
    (Return 0, print_table locks_headers rows w).

(** The [unlock] branch of [cmd_task]. *)
Definition task_unlock (state : State) (id : string) (w : World)
    : result Z * World :=
  let locks := get_task_locks state in
  if Dict.mem id locks then
    let locks' := Dict.del id locks in
    let state' := set_task_locks state locks' in
    let w := save_state state' w in
    (Return 0, print_success ("Force unlocked task " ++ id) w)
  else
    (Return 1, print_error ("Task " ++ id ++ " is not locked") w).

(** [cmd_task(args)], with the clock reading [now]. *)
Definition cmd_task (args : task_args) (now : datetime) (w : World)
    : result Z * World :=
  match load_state w with
  | Raise e => (Raise e, w)
  | Return None => (Return 1, print_error "No project found." w)
  | Return (Some state) =>
      if negb (state_truthy state) then
        (Return 1, print_error "No project found." w)
      else
        match args with
        | Claim id role => task_claim state id role now w
        | Release id => task_release state id w
        | Locks => task_locks_cmd state w
        | Unlock id => task_unlock state id w
        end
  end.

(* ------------------------------------------------------------------------- *)
(** ** Commands: Feature *)
(* ------------------------------------------------------------------------- *)

(** The parsed arguments of [nyoworks feature enable | disable]. *)
Inductive feature_args : Type :=
| Enable (id : string)
| Disable (id : string).

(** The [enable] branch of [cmd_feature]. *)
Definition feature_enable (state : State) (id : string) (w : World)
    : result Z * World :=
  if negb (list_mem id AVAILABLE_FEATURES) then
    (Return 1, print_error ("Unknown feature: " ++ id) w)
  else
    let enabled := get_enabled_features state in
    let w :=
      if negb (list_mem id enabled) then
        save_state (set_enabled_features state (list_append enabled id)) w
      else w in
    (Return 0, print_success ("Feature '" ++ id ++ "' enabled") w).

(** The [disable] branch of [cmd_feature]. *)
Definition feature_disable (state : State) (id : string) (w : World)
    : result Z * World :=
  let enabled := get_enabled_features state in
  let w :=
    if list_mem id enabled then
      save_state (set_enabled_features state (list_remove id enabled)) w
    else w in
  (Return 0, print_success ("Feature '" ++ id ++ "' disabled") w).

Definition cmd_feature (args : feature_args) (w : World) : result Z * World :=
  match load_state w with
  | Raise e => (Raise e, w)
  | Return None => (Return 1, print_error "No project found." w)
  | Return (Some state) =>
      if negb (state_truthy state) then
        (Return 1, print_error "No project found." w)
      else
        match args with
        | Enable id => feature_enable state id w
        | Disable id => feature_disable state id w
        end
  end.

(* ------------------------------------------------------------------------- *)
(** ** Text and untyped values *)
(* ------------------------------------------------------------------------- *)

(** [str(n)] for a natural number. *)
Definition str_nat (n : nat) : string :=
  NilEmpty.string_of_uint (Nat.to_uint n).

(** [s * n]. *)
Fixpoint repeat_string (s : string) (n : nat) : string :=
  match n with
  | O => ""
  | S n' => s ++ repeat_string s n'
  end.

(** A text is held as its UTF-8 bytes.  A byte in [0x80..0xBF] continues
    the character begun before it. *)
Definition continues_char (a : Ascii.ascii) : bool :=
  match a with
  | Ascii.Ascii _ _ _ _ _ _ b6 b7 => b7 && negb b6
  end.

(** [len(s)] for a text: the number of its characters, that is of the bytes
    that do not continue one. *)
Fixpoint str_len (s : string) : nat :=
  match s with
  | EmptyString => O
  | String a r => if continues_char a then str_len r else S (str_len r)
  end.

(** [s.ljust(width)]: spaces up to [width] characters. *)
Definition ljust (width : nat) (s : string) : string :=
  s ++ repeat_string " " (width - str_len s).

(** [f"{n:03d}"]: at least three digits, zeros in front. *)
Definition format_03d (n : nat) : string :=
  repeat_string "0" (3 - String.length (str_nat n)) ++ str_nat n.

(** Reading a number back: [int(s)] on a text of digits. *)
Definition parse_nat (s : string) : option nat :=
  option_map Nat.of_uint (NilEmpty.uint_of_string s).

(** [a or d] for an optional argument: a missing and an empty text are
    falsy. *)
Definition or_default (a : option string) (d : string) : string :=
  match a with
  | Some s => if String.eqb s "" then d else s
  | None => d
  end.

(** An optional argument as a value of the state file ([None] is [null]). *)
Definition json_of_arg (a : option string) : json :=
  match a with
  | Some s => JStr s
  | None => JNull
  end.

(** Exceptions that escape the commands below. *)
Inductive pyexn : Type :=
| LoadFailed (e : exn)
| TypeError
| AttributeError
| IndexError.

Inductive outcome (A : Type) : Type :=
| Done (a : A)
| Uncaught (e : pyexn).

Arguments Done {A} a.
Arguments Uncaught {A} e.

(** [len(v)]: defined on lists, dictionaries and texts. *)
Definition py_len (v : json) : option nat :=
  match v with
  | JList l => Some (List.length l)
  | JDict d => Some (List.length d)
  | JStr s => Some (str_len s)
  | _ => None
  end.

(** [state[k] = v] for a key kept in [others]. *)
Definition set_other (s : State) (k : string) (v : json) : State :=
  {| others := Dict.set k v (others s);
     enabled_features := enabled_features s;
     task_locks := task_locks s |}.

(** [print(line)] for each line, in order. *)
Definition print_lines (lines : list string) (w : World) : World :=
  fold_left (fun w line => emit (Stdout line) w) lines w.

(* ------------------------------------------------------------------------- *)
(** ** Output Helpers: the text of a table *)
(* ------------------------------------------------------------------------- *)

(** [print_table] line by line, for cells that are texts ([str(col)] is then
    [col]).  [print_table] above keeps the whole table as one event; this is
    what it writes. *)

(** [[row[i] for row in rows]]; [None] is the [IndexError] of a short row. *)
Fixpoint cells_at (i : nat) (rows : list (list string)) : option (list string) :=
  match rows with
  | [] => Some []
  | row :: r =>
      match nth_error row i with
      | None => None
      | Some c =>
          match cells_at i r with
          | None => None
          | Some cs => Some (c :: cs)
          end
      end
  end.

(** [max(len(str(row[i])) for row in rows)]. *)
Definition col_width (i : nat) (rows : list (list string)) : option nat :=
  option_map (fun cs => list_max (map str_len cs)) (cells_at i rows).

Fixpoint col_widths_at (idx : list nat) (rows : list (list string))
    : option (list nat) :=
  match idx with
  | [] => Some []
  | i :: r =>
      match col_width i rows with
      | None => None
      | Some n =>
          match col_widths_at r rows with
          | None => None
          | Some ns => Some (n :: ns)
          end
      end
  end.

(** [col_widths], over [range(len(headers))] and [[headers] + rows]. *)
Definition col_widths (headers : list string) (rows : list (list string))
    : option (list nat) :=
  col_widths_at (seq 0 (List.length headers)) (headers :: rows).

(** [[col.ljust(col_widths[i]) for i, col in enumerate(row)]], counting from
    [i]; [None] is the [IndexError] of a row longer than [col_widths]. *)
Fixpoint padded_cells (widths : list nat) (i : nat) (row : list string)
    : option (list string) :=
  match row with
  | [] => Some []
  | col :: r =>
      match nth_error widths i with
      | None => None
      | Some n =>
          match padded_cells widths (S i) r with
          | None => None
          | Some cs => Some (ljust n col :: cs)
          end
      end
  end.

(** The loop over the rows: each line is built, then printed. *)
Fixpoint print_rows (widths : list nat) (rows : list (list string)) (w : World)
    : option pyexn * World :=
  match rows with
  | [] => (None, w)
  | row :: r =>
      match padded_cells widths 0 row with
      | None => (Some IndexError, w)
      | Some cs => print_rows widths r (emit (Stdout (concat " | " cs)) w)
      end
  end.

Definition print_table_text (headers : list string) (rows : list (list string))
    (w : World) : option pyexn * World :=
  match col_widths headers rows with
  | None => (Some IndexError, w)
  | Some widths =>
      match padded_cells widths 0 headers with
      | None => (Some IndexError, w)
      | Some hs =>
          let header_line := concat " | " hs in
          let separator := concat "-+-" (map (repeat_string "-") widths) in
          let w := emit (Stdout header_line) w in
          let w := emit (Stdout separator) w in
          print_rows widths rows w
      end
  end.

(* ------------------------------------------------------------------------- *)
(** ** Commands: Phase *)
(* ------------------------------------------------------------------------- *)

Definition WORKFLOW_PHASES : list string :=
  [ "DISCOVERY"; "ARCHITECTURE"; "PLANNING"; "BACKEND"; "FRONTEND"; "QA";
    "DEPLOYMENT" ].

(** [l.index(x)]; [None] is its [ValueError]. *)
Fixpoint list_index (x : string) (l : list string) : option nat :=
  match l with
  | [] => None
  | y :: r =>
      if String.eqb x y then Some O
      else option_map S (list_index x r)
  end.

(** [WORKFLOW_PHASES.index(current) if current in WORKFLOW_PHASES else 0]:
    a value that is no text equals no phase. *)
Definition current_index (current : json) : nat :=
  match current with
  | JStr p =>
      if list_mem p WORKFLOW_PHASES then
        match list_index p WORKFLOW_PHASES with
        | Some i => i
        | None => O
        end
      else O
  | _ => O
  end.

(** [f"{marker} {i+1}. {phase} {status}"]. *)
Definition phase_line (current_idx i : nat) (phase : string) : string :=
  let marker := if Nat.eqb i current_idx then ">>>" else "   " in
  let status :=
    if Nat.eqb i current_idx then "[CURRENT]"
    else if Nat.ltb i current_idx then "[DONE]" else "" in
  marker ++ " " ++ str_nat (i + 1) ++ ". " ++ phase ++ " " ++ status.

(** [enumerate(l)], counting from [i]. *)
Fixpoint enumerate_from {A : Type} (i : nat) (l : list A) : list (nat * A) :=
  match l with
  | [] => []
  | x :: r => (i, x) :: enumerate_from (S i) r
  end.

(** The lines of the phase listing. *)
Definition phase_lines (current_idx : nat) : list string :=
  map (fun ip => phase_line current_idx (fst ip) (snd ip))
      (enumerate_from 0 WORKFLOW_PHASES).

(** The [else] branch of [cmd_phase]: the listing. *)
Definition phase_show (state : State) (w : World) : result Z * World :=
  let current :=
    match Dict.get "phase" (others state) with
    | Some v => v
    | None => JStr "DISCOVERY"
    end in
  let w := print_header "Workflow Phases" w in
  (Return 0, print_lines (phase_lines (current_index current)) w).

(** The [if args.set] branch of [cmd_phase]. *)
Definition phase_set (state : State) (p : string) (w : World)
    : result Z * World :=
  if negb (list_mem p WORKFLOW_PHASES) then
    (Return 1,
     print_error ("Invalid phase. Must be one of: "
                  ++ concat ", " WORKFLOW_PHASES) w)
  else
    let state := set_other state "phase" (JStr p) in
    let w := save_state state w in
    (Return 0, print_success ("Phase set to " ++ p) w).

(** [cmd_phase(args)], with [args.set]; a missing and an empty [--set] are
    falsy. *)
Definition cmd_phase (set : option string) (w : World) : result Z * World :=
  match load_state w with
  | Raise e => (Raise e, w)
  | Return None => (Return 1, print_error "No project found." w)
  | Return (Some state) =>
      if negb (state_truthy state) then
        (Return 1, print_error "No project found." w)
      else
        match set with
        | Some p =>
            if String.eqb p "" then phase_show state w
            else phase_set state p w
        | None => phase_show state w
        end
  end.

(* ------------------------------------------------------------------------- *)
(** ** Commands: Feature, the listing *)
(* ------------------------------------------------------------------------- *)

(** The rows of the table of all features. *)
Definition feature_rows (enabled : list string) : list (list string) :=
  map (fun f => [f; if list_mem f enabled then "Enabled" else "Disabled"])
      AVAILABLE_FEATURES.

(** The [list] branch of [cmd_feature], with [args.enabled]. *)
Definition feature_list (state : State) (enabled_only : bool) (w : World)
    : outcome Z * World :=
  let enabled := get_enabled_features state in
  if enabled_only then
    let w := print_header "Enabled Features" w in
    (Done 0, print_lines (map (fun f => "  - " ++ f) enabled) w)
  else
    let w := print_header "All Features" w in
    match print_table_text ["Feature"; "Status"] (feature_rows enabled) w with
    | (Some e, w) => (Uncaught e, w)
    | (None, w) => (Done 0, w)
    end.

(** [cmd_feature(args)] for [feature list]. *)
Definition cmd_feature_list (enabled_only : bool) (w : World)
    : outcome Z * World :=
  match load_state w with
  | Raise e => (Uncaught (LoadFailed e), w)
  | Return None => (Done 1, print_error "No project found." w)
  | Return (Some state) =>
      if negb (state_truthy state) then
        (Done 1, print_error "No project found." w)
      else feature_list state enabled_only w
  end.

(* ------------------------------------------------------------------------- *)
(** ** Commands: Task and Decision, the records *)
(* ------------------------------------------------------------------------- *)

Section Records.

(** [datetime.isoformat], of the Python library. *)
Variable isoformat : datetime -> string.

(** The dictionary [task create] builds. *)
Definition new_task (task_id title : string)
    (description feature priority : option string) (now : string) : json :=
  JDict [ ("id", JStr task_id);
          ("title", JStr title);
          ("description", JStr (or_default description ""));
          ("status", JStr "pending");
          ("assignee", JNull);
          ("feature", json_of_arg feature);
          ("priority", JStr (or_default priority "medium"));
          ("created_at", JStr now);
          ("updated_at", JStr now);
          ("completed_at", JNull) ].

(** The [create] branch of [cmd_task]. *)
Definition task_create (state : State) (title : string)
    (description feature priority : option string) (now : datetime)
    (w : World) : outcome Z * World :=
  let tasks :=
    match Dict.get "tasks" (others state) with
    | Some v => v
    | None => JList []
    end in
  match py_len tasks with
  | None => (Uncaught TypeError, w)
  | Some n =>
      let task_id := "TASK-" ++ format_03d (n + 1) in
      let now := isoformat now in
      let task := new_task task_id title description feature priority now in
      let state :=
        if negb (Dict.mem "tasks" (others state))
        then set_other state "tasks" (JList [])
        else state in
      match Dict.get "tasks" (others state) with
      | Some (JList l) =>
          let state := set_other state "tasks" (JList (l ++ [task])) in
          let w := save_state state w in
          (Done 0,
           print_success ("Created task " ++ task_id ++ ": " ++ title) w)
      | _ => (Uncaught AttributeError, w)
      end
  end.

(** [cmd_task(args)] for [task create]. *)
Definition cmd_task_create (title : string)
    (description feature priority : option string) (now : datetime)
    (w : World) : outcome Z * World :=
  match load_state w with
  | Raise e => (Uncaught (LoadFailed e), w)
  | Return None => (Done 1, print_error "No project found." w)
  | Return (Some state) =>
      if negb (state_truthy state) then
        (Done 1, print_error "No project found." w)
      else task_create state title description feature priority now w
  end.

(** The dictionary [decision add] builds. *)
Definition new_decision (id title description rationale now : string) : json :=
  JDict [ ("id", JStr id);
          ("title", JStr title);
          ("description", JStr description);
          ("rationale", JStr rationale);
          ("created_at", JStr now) ].

(** The [add] branch of [cmd_decision]. *)
Definition decision_add (state : State) (id title description rationale : string)
    (now : datetime) (w : World) : outcome Z * World :=
  let decision :=
    new_decision id title description rationale (isoformat now) in
  let state :=
    if negb (Dict.mem "decisions" (others state))
    then set_other state "decisions" (JList [])
    else state in
  match Dict.get "decisions" (others state) with
  | Some (JList l) =>
      let state := set_other state "decisions" (JList (l ++ [decision])) in
      let w := save_state state w in
      (Done 0, print_success ("Added decision " ++ id) w)
  | _ => (Uncaught AttributeError, w)
  end.

(** [cmd_decision(args)] for [decision add]. *)
Definition cmd_decision_add (id title description rationale : string)
    (now : datetime) (w : World) : outcome Z * World :=
  match load_state w with
  | Raise e => (Uncaught (LoadFailed e), w)
  | Return None => (Done 1, print_error "No project found." w)
  | Return (Some state) =>
      if negb (state_truthy state) then
        (Done 1, print_error "No project found." w)
      else decision_add state id title description rationale now w
  end.

End Records.

(* ------------------------------------------------------------------------- *)
(** ** Vocabulary of the statements *)
(* ------------------------------------------------------------------------- *)

(** The state file holds the project [state]: [load_state] returns it and it
    passes the [if not state] test. *)
Definition project (w : World) (state : State) : Prop :=
  fs w = Doc state /\ state_truthy state = true.

(** The lease table of a state: its [task_locks], empty when the key is
    missing. *)
Definition lease_table (state : State) : Dict.t Lease := get_task_locks state.

(** [LEASE_DURATION]: thirty minutes, in microseconds. *)
Definition LEASE_DURATION : Z := 30 * 60 * 1000000.

(** The lease [task claim] writes for [id], [role] at the time [now]. *)
Definition new_lease (id : string) (role : option string) (now : datetime)
    : Lease :=
  {| task_id := id;
     agent_role := role_or_manual role;
     claimed_at := now;
     expires_at := now + LEASE_DURATION |}.

(** The lease bound to [id] in the state file, when there is one. *)
Definition lease_on_disk (w : World) (id : string) : option Lease :=
  match fs w with
  | Doc s => Dict.get id (lease_table s)
  | _ => None
  end.

(** The rows of the tables among the events. *)
Fixpoint table_rows (es : list event) : list lock_row :=
  match es with
  | [] => []
  | Table _ rows :: r => (rows ++ table_rows r)%list
  | _ :: r => table_rows r
  end.

(** What a command added to the trace of [w]. *)
Definition printed (w : World) (r : result Z * World) : list event :=
  skipn (List.length (trace w)) (trace (snd r)).

(** [list_active()]: the rows that [task locks] shows. *)
Definition list_active (now : datetime) (w : World) : list lock_row :=
  table_rows (printed w (cmd_task Locks now w)).

(** The [enabled_features] of the state file, empty when there is none. *)
Definition enabled_on_disk (w : World) : list string :=
  match fs w with
  | Doc s => get_enabled_features s
  | _ => []
  end.

(** No [save_state] among the events. *)
Fixpoint no_save (es : list event) : bool :=
  match es with
  | [] => true
  | Saved _ :: _ => false
  | _ :: r => no_save r
  end.

(** The state file is written atomically: whenever the process stops after
    some of the steps of [save_state(new)], the file holds the old document
    or the new one. *)
Definition save_is_atomic : Prop :=
  forall (n : nat) (old new : State),
    save_state_upto n new (Doc old) = Doc old \/
    save_state_upto n new (Doc old) = Doc new.

(** Scenario of the documentation: [TASK-001] claimed by [backend-agent] at
    [T0]; [T0] is 2024-01-01T00:00:00 counted from [datetime.min]. *)
Definition T0 : datetime := 63839664000 * 1000000.

Definition demo_others : Dict.t json :=
  [("name", JStr "demo"); ("code", JStr "DEMO"); ("phase", JStr "BACKEND")].

Definition demo_state : State :=
  {| others := demo_others; enabled_features := Some ["crm"]; task_locks := None |}.

Definition demo_world : World := {| fs := Doc demo_state; trace := [] |}.

Definition backend_lease : Lease :=
  {| task_id := "TASK-001"; agent_role := "backend-agent";
     claimed_at := T0; expires_at := T0 + timedelta_minutes 30 |}.

Definition locked_state : State :=
  {| others := demo_others; enabled_features := Some ["crm"];
     task_locks := Some [("TASK-001", backend_lease)] |}.

Definition locked_world : World := {| fs := Doc locked_state; trace := [] |}.

(** The state file is missing, or holds the empty object [{}]: the cases in
    which [if not state] holds. *)
Definition no_project (w : World) : bool :=
  match fs w with
  | NoFile => true
  | Truncated => false
  | Doc s => negb (state_truthy s)
  end.

(** The lease table of the state file, empty when there is no document. *)
Definition locks_on_disk (w : World) : Dict.t Lease :=
  match fs w with
  | Doc s => lease_table s
  | _ => []
  end.

(** The keys of the state file that are kept in [others]. *)
Definition others_on_disk (w : World) : Dict.t json :=
  match fs w with
  | Doc s => others s
  | _ => []
  end.

(** The world left by a [save_state(new)] that stopped between its [open]
    and its [json.dump]. *)
Definition interrupted_save (new : State) (w : World) : World :=
  {| fs := save_state_upto 2 new (fs w); trace := trace w |}.

(** One run of the program, for the commands embedded above. *)
Inductive command : Type :=
| TaskCmd (args : task_args) (now : datetime)
| TaskCreateCmd (title : string) (description feature priority : option string)
    (now : datetime)
| FeatureCmd (args : feature_args)
| FeatureListCmd (enabled_only : bool)
| PhaseCmd (set : option string)
| DecisionAddCmd (id title description rationale : string) (now : datetime).

Definition outcome_of_result (r : result Z * World) : outcome Z * World :=
  match r with
  | (Return z, w) => (Done z, w)
  | (Raise e, w) => (Uncaught (LoadFailed e), w)
  end.

Definition run (isoformat : datetime -> string) (c : command) (w : World)
    : outcome Z * World :=
  match c with
  | TaskCmd args now => outcome_of_result (cmd_task args now w)
  | TaskCreateCmd title description feature priority now =>
      cmd_task_create isoformat title description feature priority now w
  | FeatureCmd args => outcome_of_result (cmd_feature args w)
  | FeatureListCmd enabled_only => cmd_feature_list enabled_only w
  | PhaseCmd set => outcome_of_result (cmd_phase set w)
  | DecisionAddCmd id title description rationale now =>
      cmd_decision_add isoformat id title description rationale now w
  end.

(** Runs of the program one after the other, each in the world the one
    before left; a run that ends in an exception does not stop the next. *)
Fixpoint run_all (isoformat : datetime -> string) (cs : list command)
    (w : World) : list (outcome Z) * World :=
  match cs with
  | [] => ([], w)
  | c :: r =>
      let (o, w1) := run isoformat c w in
      let (os, w2) := run_all isoformat r w1 in
      (o :: os, w2)
  end.

(** A stand-in for [datetime.isoformat] in examples. *)
Definition demo_isoformat (t : datetime) : string := "2024-01-01T00:00:00".

(** The state file [{}]. *)
Definition empty_world : World :=
  {| fs := Doc {| others := []; enabled_features := None; task_locks := None |};
     trace := [] |}.

(** The list stored under a key of [others]: empty when the key is missing,
    undefined when the key holds something that is not a list. *)
Definition list_under (k : string) (state : State) : option (list json) :=
  match Dict.get k (others state) with
  | None => Some []
  | Some (JList l) => Some l
  | Some _ => None
  end.


(** The text shown for a feature in the table of all features. *)
Definition feature_status (enabled : list string) (f : string) : string :=
  if list_mem f enabled then "Enabled" else "Disabled".

(** The width of the second column of that table. *)
Definition status_width (enabled : list string) : nat :=
  list_max (map str_len
              ("Status" :: map (feature_status enabled) AVAILABLE_FEATURES)).

(** Every number below [n] passes the test [p]. *)
Definition all_below (n : nat) (p : nat -> bool) : bool :=
  forallb p (seq 0 n).

(** The list stored under a key of the state file. *)
Definition list_on_disk (k : string) (w : World) : option (list json) :=
  match fs w with
  | Doc s => list_under k s
  | _ => None
  end.

(* ------------------------------------------------------------------------- *)
(** ** Facts on dictionaries and lists *)
(* ------------------------------------------------------------------------- *)

Section DictFacts.

Context {V : Type}.
Implicit Types (d : list (string * V)) (k : string) (v : V).

Lemma Dict_mem_get k d : Dict.mem k d = true <-> Dict.get k d <> None.
Proof.
  unfold Dict.mem. destruct (Dict.get k d); split; congruence.
Qed.

Lemma Dict_mem_false k d : Dict.mem k d = false <-> Dict.get k d = None.
Proof.
  unfold Dict.mem. destruct (Dict.get k d); split; congruence.
Qed.

Lemma Dict_get_set_same k v d : Dict.get k (Dict.set k v d) = Some v.
Proof.
  induction d as [|[k' v'] r IH]; simpl.
  - now rewrite String.eqb_refl.
  - destruct (String.eqb k k') eqn:E; simpl.
    + now rewrite String.eqb_refl.
    + now rewrite E.
Qed.

Lemma Dict_get_set_other k k' v d :
  k' <> k -> Dict.get k' (Dict.set k v d) = Dict.get k' d.
Proof.
  intros Hne. induction d as [|[k0 v0] r IH]; simpl.
  - apply String.eqb_neq in Hne. now rewrite Hne.
  - destruct (String.eqb k k0) eqn:E; simpl.
    + apply String.eqb_eq in E. subst k0.
      apply String.eqb_neq in Hne. now rewrite Hne.
    + now rewrite IH.
Qed.

Lemma Dict_set_fresh k v d :
  Dict.get k d = None -> Dict.set k v d = (d ++ [(k, v)])%list.
Proof.
  induction d as [|[k' v'] r IH]; simpl; [reflexivity|].
  destruct (String.eqb k k'); [discriminate|].
  intros H. now rewrite IH.
Qed.

Lemma Dict_get_del_same k d : Dict.get k (Dict.del k d) = None.
Proof.
  induction d as [|[k' v'] r IH]; simpl; [reflexivity|].
  destruct (String.eqb k k') eqn:E; simpl; [assumption|].
  now rewrite E.
Qed.

Lemma Dict_get_del_other k k' d :
  k' <> k -> Dict.get k' (Dict.del k d) = Dict.get k' d.
Proof.
  intros Hne. induction d as [|[k0 v0] r IH]; simpl; [reflexivity|].
  destruct (String.eqb k k0) eqn:E; simpl.
  - apply String.eqb_eq in E. subst k0.
    apply String.eqb_neq in Hne. now rewrite Hne.
  - now rewrite IH.
Qed.

Lemma Dict_keys_del_incl k d x :
  In x (Dict.keys (Dict.del k d)) -> In x (Dict.keys d).
Proof.
  induction d as [|[k' v'] r IH]; simpl; [tauto|].
  destruct (String.eqb k k'); simpl; intuition.
Qed.

Lemma Dict_wf_del k d : Dict.wf d -> Dict.wf (Dict.del k d).
Proof.
  unfold Dict.wf. induction d as [|[k' v'] r IH]; simpl; [trivial|].
  intros H. inversion H as [|? ? Hnin Hnd]; subst.
  destruct (String.eqb k k'); simpl; [auto|].
  constructor; [|auto].
  intros Hin. apply Hnin. eapply Dict_keys_del_incl; eauto.
Qed.

Lemma Dict_get_None_keys k d : Dict.get k d = None <-> ~ In k (Dict.keys d).
Proof.
  induction d as [|[k' v'] r IH]; simpl; [tauto|].
  destruct (String.eqb k k') eqn:E.
  - apply String.eqb_eq in E. subst. split; [discriminate|tauto].
  - apply String.eqb_neq in E. rewrite IH. split; [|tauto].
    intros H [H'|H']; [congruence|tauto].
Qed.

Lemma Dict_wf_set_fresh k v d :
  Dict.get k d = None -> Dict.wf d -> Dict.wf (Dict.set k v d).
Proof.
  intros Hget Hwf. rewrite (Dict_set_fresh _ _ _ Hget).
  unfold Dict.wf, Dict.keys in *. rewrite map_app. simpl.
  apply NoDup_app; [assumption| repeat constructor; simpl; tauto |].
  intros x Hx [Hx'|[]]. subst x.
  apply Dict_get_None_keys in Hget. now apply Hget.
Qed.

Lemma Dict_get_In_values k v d : Dict.get k d = Some v -> In v (Dict.values d).
Proof.
  induction d as [|[k' v'] r IH]; simpl; [discriminate|].
  destruct (String.eqb k k').
  - intros H; injection H as ->. now left.
  - intros H. right. auto.
Qed.

End DictFacts.

Lemma list_mem_In x l : list_mem x l = true <-> In x l.
Proof.
  induction l as [|y r IH]; simpl; [split; [discriminate|tauto]|].
  destruct (String.eqb x y) eqn:E.
  - apply String.eqb_eq in E. subst. tauto.
  - apply String.eqb_neq in E. rewrite IH. split; [tauto|].
    intros [H|H]; [congruence|assumption].
Qed.

Lemma list_mem_notIn x l : list_mem x l = false <-> ~ In x l.
Proof.
  rewrite <- list_mem_In. destruct (list_mem x l); split; congruence.
Qed.

(* ------------------------------------------------------------------------- *)
(** ** Running a command on a project *)
(* ------------------------------------------------------------------------- *)

Lemma cmd_task_project args now w state :
  project w state ->
  cmd_task args now w =
    match args with
    | Claim id role => task_claim state id role now w
    | Release id => task_release state id w
    | Locks => task_locks_cmd state w
    | Unlock id => task_unlock state id w
    end.
Proof.
  intros [Hfs Htr]. unfold cmd_task, load_state. now rewrite Hfs, Htr.
Qed.

Lemma cmd_feature_project args w state :
  project w state ->
  cmd_feature args w =
    match args with
    | Enable id => feature_enable state id w
    | Disable id => feature_disable state id w
    end.
Proof.
  intros [Hfs Htr]. unfold cmd_feature, load_state. now rewrite Hfs, Htr.
Qed.

Lemma fs_save_state s w : fs (save_state s w) = Doc s.
Proof. reflexivity. Qed.

Lemma trace_save_state s w : trace (save_state s w) = (trace w ++ [Saved s])%list.
Proof. reflexivity. Qed.

Lemma state_truthy_set_task_locks s d : state_truthy (set_task_locks s d) = true.
Proof.
  unfold state_truthy. simpl. now rewrite !orb_true_r.
Qed.

Lemma state_truthy_set_enabled_features s l :
  state_truthy (set_enabled_features s l) = true.
Proof.
  unfold state_truthy. simpl. now rewrite orb_true_r.
Qed.

Lemma timedelta_30_minutes : timedelta_minutes 30 = LEASE_DURATION.
Proof. reflexivity. Qed.

(** A command that returns 0 ran on a project. *)
Lemma cmd_task_success_project args now w :
  fst (cmd_task args now w) = Return 0 -> exists state, project w state.
Proof.
  unfold cmd_task, load_state, project.
  destruct (fs w) as [| |s]; simpl; try discriminate.
  destruct (state_truthy s) eqn:E; simpl; [|discriminate].
  intros _. now exists s.
Qed.

(** [task claim] on a project without an entry for [id]. *)
Lemma claim_free w state id role now :
  project w state ->
  Dict.get id (lease_table state) = None ->
  cmd_task (Claim id role) now w =
    (Return 0,
     print_success ("Claimed task " ++ id)
       (save_state
          (set_task_locks state
             (Dict.set id (new_lease id role now) (lease_table state))) w)).
Proof.
  intros Hp Hget. rewrite (cmd_task_project _ _ _ _ Hp).
  unfold task_claim, lease_table in *. now rewrite Hget.
Qed.

(** [task claim] on a project with an entry for [id], whatever its dates. *)
Lemma claim_locked w state id role now l :
  project w state ->
  Dict.get id (lease_table state) = Some l ->
  cmd_task (Claim id role) now w =
    (Return 1, print_error ("Task already claimed by " ++ agent_role l) w).
Proof.
  intros Hp Hget. rewrite (cmd_task_project _ _ _ _ Hp).
  unfold task_claim, lease_table in *. now rewrite Hget.
Qed.

(** A [task claim] that returns 0 found no entry for [id]. *)
Lemma claim_success_free w state id role now :
  project w state ->
  fst (cmd_task (Claim id role) now w) = Return 0 ->
  Dict.get id (lease_table state) = None.
Proof.
  intros Hp Hok. destruct (Dict.get id (lease_table state)) as [l|] eqn:E;
    [|reflexivity].
  rewrite (claim_locked _ _ _ _ _ _ Hp E) in Hok. discriminate.
Qed.

(* ------------------------------------------------------------------------- *)
(** ** Claiming a task *)
(* ------------------------------------------------------------------------- *)

(** C1, as stated, fails: [TASK-001] was claimed by [backend-agent] at [T0]
    and the lease ran out at [T0 + 30 min]; a claim by [qa-agent] one minute
    later is still rejected, with exit code 1, and nothing is written. *)
Lemma C1_expired_lease_still_blocks :
  project locked_world locked_state /\
  Dict.get "TASK-001" (lease_table locked_state) = Some backend_lease /\
  expires_at backend_lease <= T0 + timedelta_minutes 31 /\
  cmd_task (Claim "TASK-001" (Some "qa-agent")) (T0 + timedelta_minutes 31)
           locked_world
  = (Return 1,
     {| fs := Doc locked_state;
        trace := [Stderr "[ERROR] Task already claimed by backend-agent"] |}).
Proof.
  repeat split; vm_compute; congruence.
Qed.

(** C1, amended: on a project whose lease table has no entry for [id],
    [task claim] returns 0 and saves the state in which [id] is bound to a
    new lease claimed at [now], expiring at [now] plus thirty minutes, held
    by the given role (["manual"] for a missing or empty role); the entry is
    appended and every other entry is kept.  An entry for [id] is never
    replaced: with one in the table, expired or not, the claim returns 1 and
    the state file is left as it was. *)
Theorem C1_claim_when_unlocked w state id role now :
  project w state ->
  (Dict.get id (lease_table state) = None ->
     let state' :=
       set_task_locks state
         (lease_table state ++ [(id, new_lease id role now)])%list in
     cmd_task (Claim id role) now w =
       (Return 0,
        {| fs := Doc state';
           trace := trace w ++ [Saved state';
                                Stdout ("[OK] Claimed task " ++ id)] |}) /\
     Dict.get id (lease_table state') = Some (new_lease id role now) /\
     claimed_at (new_lease id role now) = now /\
     expires_at (new_lease id role now) = now + 30 * 60 * 1000000 /\
     agent_role (new_lease id role now) = role_or_manual role /\
     (forall k, k <> id ->
        Dict.get k (lease_table state') = Dict.get k (lease_table state))) /\
  (forall l, Dict.get id (lease_table state) = Some l ->
     fst (cmd_task (Claim id role) now w) = Return 1 /\
     fs (snd (cmd_task (Claim id role) now w)) = Doc state).
Proof.
  intros Hp. split.
  - intros Hget state'.
    assert (Hset : Dict.set id (new_lease id role now) (lease_table state)
                   = (lease_table state ++ [(id, new_lease id role now)])%list)
      by now apply Dict_set_fresh.
    split; [|split; [|repeat split]].
    + rewrite (claim_free _ _ _ _ _ Hp Hget), Hset.
      unfold print_success, emit, save_state. simpl.
      now rewrite <- app_assoc.
    + subst state'. unfold lease_table at 1. simpl.
      rewrite <- Hset. apply Dict_get_set_same.
    + intros k Hk. subst state'. unfold lease_table at 1. simpl.
      rewrite <- Hset. now apply Dict_get_set_other.
  - intros l Hget. rewrite (claim_locked _ _ _ _ _ _ Hp Hget). simpl.
    split; [reflexivity|apply Hp].
Qed.

Lemma C1_claim_when_unlocked_witness :
  project demo_world demo_state /\
  cmd_task (Claim "TASK-001" (Some "backend-agent")) T0 demo_world =
    (Return 0,
     {| fs := Doc locked_state;
        trace := [Saved locked_state; Stdout "[OK] Claimed task TASK-001"] |}).
Proof.
  assert (Hp : project demo_world demo_state) by (split; reflexivity).
  split; [exact Hp|].
  destruct (C1_claim_when_unlocked demo_world demo_state "TASK-001"
              (Some "backend-agent") T0 Hp) as [Hfree _].
  destruct (Hfree eq_refl) as [Hrun _].
  exact Hrun.
Defined.

(** The world after a [task claim] that returned 0. *)
Lemma claim_success_world w state id role now :
  project w state ->
  fst (cmd_task (Claim id role) now w) = Return 0 ->
  let state' :=
    set_task_locks state
      (Dict.set id (new_lease id role now) (lease_table state)) in
  snd (cmd_task (Claim id role) now w) =
    print_success ("Claimed task " ++ id) (save_state state' w) /\
  project (snd (cmd_task (Claim id role) now w)) state' /\
  Dict.get id (lease_table state') = Some (new_lease id role now).
Proof.
  intros Hp Hok state'.
  pose proof (claim_success_free _ _ _ _ _ Hp Hok) as Hfree.
  rewrite (claim_free _ _ _ _ _ Hp Hfree). simpl.
  split; [reflexivity|]. split.
  - split; [reflexivity|apply state_truthy_set_task_locks].
  - subst state'. unfold lease_table at 1. simpl. apply Dict_get_set_same.
Qed.

(** C2: on a project whose lease table binds [id] to a lease that has not
    expired at [now], [task claim] returns 1, prints the error naming the
    [agent_role] of that lease, writes nothing (the trace grows by the error
    line only) and leaves the state file as it was.  In particular a claim
    that returned 0 at [now1], followed by a claim of the same task before
    the lease runs out, makes the second claim return 1 with the error
    naming the first holder, the state file unchanged. *)
Theorem C2_claim_conflict w state id :
  project w state ->
  (forall role now l,
     Dict.get id (lease_table state) = Some l ->
     now < expires_at l ->
     cmd_task (Claim id role) now w =
       (Return 1,
        {| fs := Doc state;
           trace := trace w ++
                    [Stderr ("[ERROR] Task already claimed by " ++ agent_role l)] |})
     /\ no_save [Stderr ("[ERROR] Task already claimed by " ++ agent_role l)]
        = true) /\
  (forall role1 now1 role2 now2,
     fst (cmd_task (Claim id role1) now1 w) = Return 0 ->
     now2 < now1 + LEASE_DURATION ->
     let w1 := snd (cmd_task (Claim id role1) now1 w) in
     cmd_task (Claim id role2) now2 w1 =
       (Return 1,
        {| fs := fs w1;
           trace := trace w1 ++
                    [Stderr ("[ERROR] Task already claimed by "
                             ++ role_or_manual role1)] |})).
Proof.
  intros Hp. split.
  - intros role now l Hget _. split; [|reflexivity].
    rewrite (claim_locked _ _ _ _ _ _ Hp Hget).
    unfold print_error, emit. destruct Hp as [Hfs _]. now rewrite Hfs.
  - intros role1 now1 role2 now2 Hok _ w1.
    destruct (claim_success_world _ _ _ _ _ Hp Hok) as (_ & Hp1 & Hget1).
    fold w1 in Hp1.
    now rewrite (claim_locked _ _ _ _ _ _ Hp1 Hget1).
Qed.

Lemma C2_claim_conflict_witness :
  project locked_world locked_state /\
  Dict.get "TASK-001" (lease_table locked_state) = Some backend_lease /\
  T0 + timedelta_minutes 5 < expires_at backend_lease /\
  cmd_task (Claim "TASK-001" (Some "qa-agent")) (T0 + timedelta_minutes 5)
           locked_world =
    (Return 1,
     {| fs := Doc locked_state;
        trace := [Stderr "[ERROR] Task already claimed by backend-agent"] |}).
Proof.
  assert (Hp : project locked_world locked_state) by (split; reflexivity).
  assert (Hlt : T0 + timedelta_minutes 5 < expires_at backend_lease)
    by (vm_compute; reflexivity).
  split; [exact Hp|]. split; [reflexivity|]. split; [exact Hlt|].
  destruct (C2_claim_conflict locked_world locked_state "TASK-001" Hp)
    as [Hlocked _].
  exact (proj1 (Hlocked (Some "qa-agent") (T0 + timedelta_minutes 5)
                  backend_lease eq_refl Hlt)).
Defined.

(** C3, as stated, fails: a claim run with [--role ""] supplies a holder,
    the empty one, and returns 0, but the lease it writes is held by
    ["manual"], not by the supplied holder. *)
Lemma C3_empty_role_is_manual :
  fst (cmd_task (Claim "TASK-001" (Some "")) T0 demo_world) = Return 0 /\
  option_map agent_role
    (lease_on_disk (snd (cmd_task (Claim "TASK-001" (Some "")) T0 demo_world))
       "TASK-001") = Some "manual" /\
  "manual" <> "".
Proof.
  repeat split; vm_compute; congruence.
Qed.

(** C3, amended: after every [task claim] that returns 0 the state file
    binds the task to a lease whose holder is the supplied role when that
    role is a non-empty string, and ["manual"] when no role or the empty
    role was supplied; its [expires_at] is its [claimed_at] plus exactly
    thirty minutes. *)
Theorem C3_lease_holder_and_expiry w id role now :
  fst (cmd_task (Claim id role) now w) = Return 0 ->
  exists l,
    lease_on_disk (snd (cmd_task (Claim id role) now w)) id = Some l /\
    task_id l = id /\
    (forall r, role = Some r -> r <> "" -> agent_role l = r) /\
    (role = None \/ role = Some "" -> agent_role l = "manual") /\
    expires_at l = claimed_at l + 30 * 60 * 1000000.
Proof.
  intros Hok.
  destruct (cmd_task_success_project _ _ _ Hok) as [state Hp].
  destruct (claim_success_world _ _ _ _ _ Hp Hok) as (Hw & [Hfs _] & Hget).
  exists (new_lease id role now).
  unfold lease_on_disk. rewrite Hfs, Hget.
  repeat split.
  - intros r -> Hr. simpl. apply String.eqb_neq in Hr. now rewrite Hr.
  - intros [-> | ->]; reflexivity.
Qed.

Lemma C3_lease_holder_and_expiry_witness :
  fst (cmd_task (Claim "TASK-001" (Some "backend-agent")) T0 demo_world)
    = Return 0 /\
  exists l,
    lease_on_disk
      (snd (cmd_task (Claim "TASK-001" (Some "backend-agent")) T0 demo_world))
      "TASK-001" = Some l /\
    task_id l = "TASK-001" /\
    (forall r, Some "backend-agent" = Some r -> r <> "" -> agent_role l = r) /\
    (Some "backend-agent" = None \/ Some "backend-agent" = Some "" ->
       agent_role l = "manual") /\
    expires_at l = claimed_at l + 30 * 60 * 1000000.
Proof.
  split; [reflexivity|].
  exact (C3_lease_holder_and_expiry demo_world "TASK-001"
           (Some "backend-agent") T0 eq_refl).
Defined.

(* ------------------------------------------------------------------------- *)
(** ** Releasing, unlocking and listing *)
(* ------------------------------------------------------------------------- *)

Lemma project_emit e w state : project w state -> project (emit e w) state.
Proof. intros H. exact H. Qed.

Lemma printed_app w x es :
  trace (snd x) = (trace w ++ es)%list -> printed w x = es.
Proof.
  intros H. unfold printed. rewrite H.
  rewrite skipn_app, skipn_all, Nat.sub_diag. reflexivity.
Qed.

Lemma release_unlocked w state id now :
  project w state ->
  Dict.get id (lease_table state) = None ->
  cmd_task (Release id) now w =
    (Return 1, print_error ("Task " ++ id ++ " is not locked") w).
Proof.
  intros Hp Hget. rewrite (cmd_task_project _ _ _ _ Hp).
  unfold task_release. apply Dict_mem_false in Hget.
  unfold lease_table in Hget. now rewrite Hget.
Qed.

Lemma release_locked w state id now l :
  project w state ->
  Dict.get id (lease_table state) = Some l ->
  cmd_task (Release id) now w =
    (Return 0,
     print_success ("Released task " ++ id)
       (save_state (set_task_locks state (Dict.del id (lease_table state))) w)).
Proof.
  intros Hp Hget. rewrite (cmd_task_project _ _ _ _ Hp).
  unfold task_release, Dict.mem, lease_table in *. now rewrite Hget.
Qed.

Lemma unlock_unlocked w state id now :
  project w state ->
  Dict.get id (lease_table state) = None ->
  cmd_task (Unlock id) now w =
    (Return 1, print_error ("Task " ++ id ++ " is not locked") w).
Proof.
  intros Hp Hget. rewrite (cmd_task_project _ _ _ _ Hp).
  unfold task_unlock. apply Dict_mem_false in Hget.
  unfold lease_table in Hget. now rewrite Hget.
Qed.

Lemma unlock_locked w state id now l :
  project w state ->
  Dict.get id (lease_table state) = Some l ->
  cmd_task (Unlock id) now w =
    (Return 0,
     print_success ("Force unlocked task " ++ id)
       (save_state (set_task_locks state (Dict.del id (lease_table state))) w)).
Proof.
  intros Hp Hget. rewrite (cmd_task_project _ _ _ _ Hp).
  unfold task_unlock, Dict.mem, lease_table in *. now rewrite Hget.
Qed.

(** C4: on a project, [task release] returns 1 with the error
    "Task <id> is not locked" exactly when the lease table has no entry for
    [id] (and then writes nothing); when there is an entry, whoever holds
    it, the command returns 0 and saves the state whose lease table has lost
    that entry and kept every other one.  The command takes the task id
    only: no caller is compared with the holder. *)
Theorem C4_release w state id now :
  project w state ->
  (fst (cmd_task (Release id) now w) = Return 1 <->
     Dict.get id (lease_table state) = None) /\
  (Dict.get id (lease_table state) = None ->
     cmd_task (Release id) now w =
       (Return 1,
        {| fs := Doc state;
           trace := trace w ++
                    [Stderr ("[ERROR] Task " ++ id ++ " is not locked")] |})) /\
  (forall l, Dict.get id (lease_table state) = Some l ->
     let state' := set_task_locks state (Dict.del id (lease_table state)) in
     cmd_task (Release id) now w =
       (Return 0,
        {| fs := Doc state';
           trace := trace w ++ [Saved state';
                                Stdout ("[OK] Released task " ++ id)] |}) /\
     Dict.get id (lease_table state') = None /\
     (forall k, k <> id ->
        Dict.get k (lease_table state') = Dict.get k (lease_table state))).
Proof.
  intros Hp. split; [|split].
  - destruct (Dict.get id (lease_table state)) as [l|] eqn:E.
    + rewrite (release_locked _ _ _ _ _ Hp E). simpl. split; discriminate.
    + rewrite (release_unlocked _ _ _ _ Hp E). simpl. tauto.
  - intros E. rewrite (release_unlocked _ _ _ _ Hp E).
    unfold print_error, emit. destruct Hp as [Hfs _]. now rewrite Hfs.
  - intros l E state'. split; [|split].
    + rewrite (release_locked _ _ _ _ _ Hp E).
      unfold print_success, emit, save_state. simpl.
      now rewrite <- app_assoc.
    + apply Dict_get_del_same.
    + intros k Hk. now apply Dict_get_del_other.
Qed.

Lemma C4_release_witness :
  project locked_world locked_state /\
  cmd_task (Release "TASK-001") T0 locked_world =
    (Return 0,
     {| fs := Doc (set_task_locks locked_state []);
        trace := [Saved (set_task_locks locked_state []);
                  Stdout "[OK] Released task TASK-001"] |}).
Proof.
  assert (Hp : project locked_world locked_state) by (split; reflexivity).
  split; [exact Hp|].
  destruct (C4_release locked_world locked_state "TASK-001" T0 Hp)
    as (_ & _ & Hlocked).
  exact (proj1 (Hlocked backend_lease eq_refl)).
Defined.

(** The lease table stays a dictionary, with pairwise distinct keys, under
    every task command. *)
Lemma cmd_task_keeps_wf args now w state :
  project w state ->
  Dict.wf (lease_table state) ->
  exists state',
    project (snd (cmd_task args now w)) state' /\
    Dict.wf (lease_table state').
Proof.
  intros Hp Hwf. rewrite (cmd_task_project _ _ _ _ Hp).
  destruct args as [id role|id| |id].
  - unfold task_claim.
    destruct (Dict.get id (get_task_locks state)) eqn:E.
    + exists state. split; [exact Hp|exact Hwf].
    + eexists. split.
      * split; [reflexivity|apply state_truthy_set_task_locks].
      * unfold lease_table at 1. simpl. now apply Dict_wf_set_fresh.
  - unfold task_release.
    destruct (Dict.mem id (get_task_locks state)); simpl.
    + eexists. split.
      * split; [reflexivity|apply state_truthy_set_task_locks].
      * unfold lease_table at 1. simpl. now apply Dict_wf_del.
    + exists state. split; [exact Hp|exact Hwf].
  - unfold task_locks_cmd.
    destruct (Dict.is_empty (get_task_locks state));
      exists state; (split; [exact Hp|exact Hwf]).
  - unfold task_unlock.
    destruct (Dict.mem id (get_task_locks state)); simpl.
    + eexists. split.
      * split; [reflexivity|apply state_truthy_set_task_locks].
      * unfold lease_table at 1. simpl. now apply Dict_wf_del.
    + exists state. split; [exact Hp|exact Hwf].
Qed.

(** [task unlock] and [task release] agree on every world, up to the text of
    the success line. *)
Lemma unlock_release_agree w id now :
  fst (cmd_task (Unlock id) now w) = fst (cmd_task (Release id) now w) /\
  fs (snd (cmd_task (Unlock id) now w)) = fs (snd (cmd_task (Release id) now w)) /\
  (fst (cmd_task (Release id) now w) <> Return 0 ->
     cmd_task (Unlock id) now w = cmd_task (Release id) now w).
Proof.
  unfold cmd_task. destruct (load_state w) as [[state|]|e]; simpl; auto.
  destruct (state_truthy state); simpl; auto.
  unfold task_unlock, task_release.
  destruct (Dict.mem id (get_task_locks state)); simpl; auto.
  repeat split. intros H. now elim H.
Qed.

(** After a claim of [id], accepted or rejected, [id] is locked. *)
Lemma claim_leaves_locked w state id role now :
  project w state ->
  exists state1 l1,
    project (snd (cmd_task (Claim id role) now w)) state1 /\
    Dict.get id (lease_table state1) = Some l1.
Proof.
  intros Hp. destruct (Dict.get id (lease_table state)) as [l|] eqn:E.
  - exists state, l. rewrite (claim_locked _ _ _ _ _ _ Hp E). simpl.
    split; [now apply project_emit|assumption].
  - assert (Hok : fst (cmd_task (Claim id role) now w) = Return 0)
      by now rewrite (claim_free _ _ _ _ _ Hp E).
    destruct (claim_success_world _ _ _ _ _ Hp Hok) as (_ & Hp1 & Hget1).
    eauto.
Qed.

(** C5: [task unlock] has the effect of [task release] on every world: the
    same exit code, the same state file afterwards, and when they fail the
    very same output ("Task <id> is not locked" with exit code 1 when
    nothing is locked); they differ in the wording of the success line
    only.  In particular, on a project, a claim of [id] by one role, then
    [task unlock id], then a claim of [id] by another role: the unlock
    returns 0, the second claim returns 0 and the state file then binds
    [id] to the lease of the second role. *)
Theorem C5_unlock_same_as_release w id now :
  fst (cmd_task (Unlock id) now w) = fst (cmd_task (Release id) now w) /\
  fs (snd (cmd_task (Unlock id) now w))
    = fs (snd (cmd_task (Release id) now w)) /\
  (fst (cmd_task (Release id) now w) <> Return 0 ->
     cmd_task (Unlock id) now w = cmd_task (Release id) now w) /\
  (forall state, project w state ->
     (Dict.get id (lease_table state) = None ->
        cmd_task (Unlock id) now w =
          (Return 1,
           {| fs := Doc state;
              trace := trace w ++
                       [Stderr ("[ERROR] Task " ++ id ++ " is not locked")] |}))
     /\
     (forall roleA roleB nowB,
        let w1 := snd (cmd_task (Claim id roleA) now w) in
        let w2 := snd (cmd_task (Unlock id) now w1) in
        fst (cmd_task (Unlock id) now w1) = Return 0 /\
        fst (cmd_task (Claim id roleB) nowB w2) = Return 0 /\
        lease_on_disk (snd (cmd_task (Claim id roleB) nowB w2)) id
          = Some (new_lease id roleB nowB))).
Proof.
  destruct (unlock_release_agree w id now) as (H1 & H2 & H3).
  repeat (split; [assumption|]).
  intros state Hp. split.
  - intros E. rewrite (unlock_unlocked _ _ _ _ Hp E).
    unfold print_error, emit. destruct Hp as [Hfs _]. now rewrite Hfs.
  - intros roleA roleB nowB w1 w2.
    destruct (claim_leaves_locked w state id roleA now Hp)
      as (state1 & l1 & Hp1 & Hget1).
    fold w1 in Hp1.
    pose proof (unlock_locked _ _ _ now _ Hp1 Hget1) as Hu.
    set (state2 := set_task_locks state1 (Dict.del id (lease_table state1))) in *.
    assert (Hp2 : project w2 state2).
    { subst w2. rewrite Hu. simpl. split; [reflexivity|].
      apply state_truthy_set_task_locks. }
    assert (Hget2 : Dict.get id (lease_table state2) = None)
      by apply Dict_get_del_same.
    assert (Hok : fst (cmd_task (Claim id roleB) nowB w2) = Return 0)
      by now rewrite (claim_free _ _ _ _ _ Hp2 Hget2).
    split; [now rewrite Hu|]. split; [assumption|].
    destruct (claim_success_world _ _ _ _ _ Hp2 Hok) as (_ & [Hfs3 _] & Hget3).
    unfold lease_on_disk. now rewrite Hfs3.
Qed.

Lemma C5_unlock_same_as_release_witness :
  project demo_world demo_state /\
  fst (cmd_task (Claim "TASK-001" (Some "B")) (T0 + 2)
         (snd (cmd_task (Unlock "TASK-001") T0
                 (snd (cmd_task (Claim "TASK-001" (Some "A")) T0 demo_world)))))
    = Return 0.
Proof.
  assert (Hp : project demo_world demo_state) by (split; reflexivity).
  split; [exact Hp|].
  destruct (C5_unlock_same_as_release demo_world "TASK-001" T0)
    as (_ & _ & _ & Hseq).
  destruct (Hseq demo_state Hp) as [_ Hclaims].
  exact (proj1 (proj2 (Hclaims (Some "A") (Some "B") (T0 + 2)))).
Defined.

(** What [task locks] prints on a project. *)
Lemma locks_rows w state now :
  project w state ->
  list_active now w = map row_of_lease (Dict.values (lease_table state)) /\
  no_save (printed w (cmd_task Locks now w)) = true.
Proof.
  intros Hp.
  unfold list_active. rewrite (cmd_task_project _ _ _ _ Hp).
  unfold task_locks_cmd, lease_table.
  destruct (get_task_locks state) as [|kv r] eqn:E; simpl Dict.is_empty; cbv iota.
  - rewrite (printed_app w _ [Stdout "[INFO] No active locks."]);
      [split; reflexivity | reflexivity].
  - rewrite (printed_app w _
               [Header "Active Task Locks";
                Table locks_headers
                  (map row_of_lease (Dict.values (kv :: r)))]).
    + simpl. rewrite app_nil_r. split; reflexivity.
    + unfold print_table, print_header, emit. simpl.
      now rewrite <- app_assoc.
Qed.

(** C6: on a project, [task locks] shows exactly one row per entry of the
    lease table, in the order of the table: the row of an entry holds its
    [task_id], its [agent_role], and its [claimed_at] and [expires_at] cut
    to the second.  An entry whose [expires_at] has passed is shown like any
    other.  The command returns 0, leaves the state file as it was and saves
    nothing, so no entry is pruned. *)
Theorem C6_locks_shows_whole_table w state now :
  project w state ->
  list_active now w =
    map (fun l : Lease =>
           {| row_task := task_id l;
              row_agent := agent_role l;
              row_claimed := claimed_at l / 1000000;
              row_expires := expires_at l / 1000000 |})
        (map snd (lease_table state)) /\
  List.length (list_active now w) = List.length (lease_table state) /\
  (forall id l,
     Dict.get id (lease_table state) = Some l ->
     expires_at l <= now ->
     In {| row_task := task_id l;
           row_agent := agent_role l;
           row_claimed := claimed_at l / 1000000;
           row_expires := expires_at l / 1000000 |}
        (list_active now w)) /\
  (forall row, In row (list_active now w) ->
     exists l, In l (map snd (lease_table state)) /\
       row_task row = task_id l /\
       row_agent row = agent_role l /\
       row_claimed row = claimed_at l / 1000000 /\
       row_expires row = expires_at l / 1000000) /\
  fst (cmd_task Locks now w) = Return 0 /\
  fs (snd (cmd_task Locks now w)) = Doc state /\
  no_save (printed w (cmd_task Locks now w)) = true.
Proof.
  intros Hp.
  pose proof (locks_rows w state now Hp) as Hrows.
  destruct Hrows as [Hrows Hns].
  assert (Hexp : list_active now w =
            map (fun l : Lease =>
                   {| row_task := task_id l;
                      row_agent := agent_role l;
                      row_claimed := claimed_at l / 1000000;
                      row_expires := expires_at l / 1000000 |})
                (map snd (lease_table state)))
    by (rewrite Hrows; reflexivity).
  split; [assumption|]. split; [|split; [|split; [|split; [|split]]]].
  - rewrite Hexp. now rewrite !length_map.
  - intros id l Hget _. rewrite Hexp.
    apply (in_map (fun l0 : Lease =>
                     {| row_task := task_id l0;
                        row_agent := agent_role l0;
                        row_claimed := claimed_at l0 / 1000000;
                        row_expires := expires_at l0 / 1000000 |})).
    exact (Dict_get_In_values _ _ _ Hget).
  - intros row Hin. rewrite Hexp in Hin. apply in_map_iff in Hin.
    destruct Hin as (l & <- & Hl). exists l. repeat split. exact Hl.
  - rewrite (cmd_task_project _ _ _ _ Hp). unfold task_locks_cmd.
    now destruct (Dict.is_empty (get_task_locks state)).
  - rewrite (cmd_task_project _ _ _ _ Hp). unfold task_locks_cmd.
    destruct (Dict.is_empty (get_task_locks state)); simpl; apply Hp.
  - assumption.
Qed.

Lemma C6_locks_shows_whole_table_witness :
  project locked_world locked_state /\
  list_active (T0 + timedelta_minutes 31) locked_world =
    [ {| row_task := "TASK-001"; row_agent := "backend-agent";
         row_claimed := 63839664000; row_expires := 63839665800 |} ].
Proof.
  assert (Hp : project locked_world locked_state) by (split; reflexivity).
  split; [exact Hp|].
  rewrite (proj1 (C6_locks_shows_whole_table locked_world locked_state
                    (T0 + timedelta_minutes 31) Hp)).
  reflexivity.
Defined.

Lemma isoformat_19_lease now :
  isoformat_19 (now + LEASE_DURATION) = isoformat_19 now + 30 * 60.
Proof.
  unfold isoformat_19, LEASE_DURATION.
  replace (30 * 60 * 1000000) with (1800 * 1000000) by reflexivity.
  rewrite Z.div_add by discriminate. reflexivity.
Qed.

(** C7, as stated, fails: a claim of [TASK-001] with the holder [""] returns
    0, and the listing that follows has a single row, whose holder is
    ["manual"]: no row for the task has the holder that was given. *)
Lemma C7_empty_role_listed_as_manual :
  fst (cmd_task (Claim "TASK-001" (Some "")) T0 demo_world) = Return 0 /\
  list_active T0 (snd (cmd_task (Claim "TASK-001" (Some "")) T0 demo_world)) =
    [ {| row_task := "TASK-001"; row_agent := "manual";
         row_claimed := 63839664000; row_expires := 63839665800 |} ] /\
  "manual" <> "".
Proof.
  repeat split; vm_compute; congruence.
Qed.

(** C7, amended: after a [task claim] of [id] that returns 0, [task locks]
    run on the resulting state file, at any time, shows a row for [id]
    whose holder is the given role when that role is a non-empty string and
    ["manual"] when no role or the empty role was given, and whose
    expires-at is its claimed-at plus thirty minutes (the table shows both
    cut to the second). *)
Theorem C7_claim_then_locks w id role now now' :
  fst (cmd_task (Claim id role) now w) = Return 0 ->
  exists row,
    In row (list_active now' (snd (cmd_task (Claim id role) now w))) /\
    row_task row = id /\
    (forall h, role = Some h -> h <> "" -> row_agent row = h) /\
    (role = None \/ role = Some "" -> row_agent row = "manual") /\
    row_claimed row = isoformat_19 now /\
    row_expires row = row_claimed row + 30 * 60.
Proof.
  intros Hok.
  destruct (cmd_task_success_project _ _ _ Hok) as [state Hp].
  destruct (claim_success_world _ _ _ _ _ Hp Hok) as (_ & Hp1 & Hget1).
  exists (row_of_lease (new_lease id role now)).
  split; [|repeat split].
  - rewrite (proj1 (locks_rows _ _ now' Hp1)). apply in_map.
    eapply Dict_get_In_values; eauto.
  - intros h -> Hh. simpl. apply String.eqb_neq in Hh. now rewrite Hh.
  - intros [-> | ->]; reflexivity.
  - simpl. apply isoformat_19_lease.
Qed.

Lemma C7_claim_then_locks_witness :
  fst (cmd_task (Claim "TASK-001" (Some "backend-agent")) T0 demo_world)
    = Return 0 /\
  exists row,
    In row (list_active (T0 + 1)
              (snd (cmd_task (Claim "TASK-001" (Some "backend-agent")) T0
                      demo_world))) /\
    row_task row = "TASK-001" /\
    (forall h, Some "backend-agent" = Some h -> h <> "" -> row_agent row = h) /\
    (Some "backend-agent" = None \/ Some "backend-agent" = Some "" ->
       row_agent row = "manual") /\
    row_claimed row = isoformat_19 T0 /\
    row_expires row = row_claimed row + 30 * 60.
Proof.
  split; [reflexivity|].
  exact (C7_claim_then_locks demo_world "TASK-001" (Some "backend-agent")
           T0 (T0 + 1) eq_refl).
Defined.

(* ------------------------------------------------------------------------- *)
(** ** Saving the state file *)
(* ------------------------------------------------------------------------- *)

(** C8, as stated, fails: [save_state] opens the state file itself for
    writing.  When the process stops after that [open] and before
    [json.dump], the file that held [demo_state] is empty: it holds neither
    the old document nor the new one, and [load_state] raises on it. *)
Lemma C8_crash_after_open_loses_state :
  save_state_upto 2 locked_state (Doc demo_state) = Truncated /\
  load_state {| fs := save_state_upto 2 locked_state (Doc demo_state);
                trace := [] |} = Raise JSONDecodeError /\
  ~ save_is_atomic.
Proof.
  split; [reflexivity|]. split; [reflexivity|].
  intros Hat.
  destruct (Hat 2%nat demo_state locked_state) as [H|H]; discriminate H.
Qed.

(** C8, amended: [save_state] overwrites the state file in place, in the
    steps [mkdir], [open(..., "w")], [json.dump]: there is no temporary file
    and no rename.  A save that runs to the end leaves exactly the new
    state, which [load_state] then returns; a process that stops before the
    [open] leaves the file as it was, and one that stops between the [open]
    and the [dump] leaves an empty file. *)
Theorem C8_save_overwrites_in_place (n : nat) (new : State) (w : World) :
  save_state_steps new = [Mkdir; OpenW; Dump new] /\
  fs (save_state new w) = Doc new /\
  load_state (save_state new w) = Return (Some new) /\
  save_state_upto n new (fs w) =
    match n with
    | 0%nat | 1%nat => fs w
    | 2%nat => Truncated
    | _ => Doc new
    end.
Proof.
  repeat split.
  destruct n as [|[|[|[|n]]]]; reflexivity.
Qed.

(* ------------------------------------------------------------------------- *)
(** ** Feature flags *)
(* ------------------------------------------------------------------------- *)

Lemma enable_known w state f :
  project w state ->
  In f AVAILABLE_FEATURES ->
  cmd_feature (Enable f) w =
    (Return 0,
     print_success ("Feature '" ++ f ++ "' enabled")
       (if list_mem f (get_enabled_features state) then w
        else save_state
               (set_enabled_features state
                  (get_enabled_features state ++ [f])) w)).
Proof.
  intros Hp Hin. rewrite (cmd_feature_project _ _ _ Hp).
  unfold feature_enable. apply list_mem_In in Hin. rewrite Hin. simpl.
  now destruct (list_mem f (get_enabled_features state)).
Qed.

Lemma count_occ_app_one (l : list string) (f : string) :
  count_occ string_dec (l ++ [f]) f = S (count_occ string_dec l f).
Proof.
  rewrite count_occ_app. simpl.
  destruct (string_dec f f) as [_|Hne]; [|now elim Hne].
  now rewrite Nat.add_1_r.
Qed.

Lemma NoDup_append_fresh (l : list string) (f : string) :
  ~ In f l -> NoDup l -> NoDup (l ++ [f]).
Proof.
  intros Hnin Hnd. apply NoDup_app; [assumption| |].
  - constructor; [simpl; tauto|constructor].
  - intros x Hx [Hx'|[]]. subst x. tauto.
Qed.

(** C9: on a project, for a feature [f] of [AVAILABLE_FEATURES],
    [feature enable f] returns 0 and [f] is enabled afterwards.  When [f]
    was already enabled the command prints the success line only: nothing
    is saved and the state file, hence [enabled_features], is as before.
    So enabling keeps the list free of duplicates: a list without
    duplicates stays so, and a list that holds [f] at most once holds it
    exactly once afterwards, however often [f] is enabled again. *)
Theorem C9_enable_idempotent w state f :
  project w state ->
  In f AVAILABLE_FEATURES ->
  let w' := snd (cmd_feature (Enable f) w) in
  fst (cmd_feature (Enable f) w) = Return 0 /\
  In f (enabled_on_disk w') /\
  (In f (get_enabled_features state) ->
     cmd_feature (Enable f) w =
       (Return 0,
        {| fs := Doc state;
           trace := trace w ++
                    [Stdout ("[OK] Feature '" ++ f ++ "' enabled")] |})) /\
  (NoDup (enabled_on_disk w) -> NoDup (enabled_on_disk w')) /\
  ((count_occ string_dec (enabled_on_disk w) f <= 1)%nat ->
     count_occ string_dec (enabled_on_disk w') f = 1%nat) /\
  fst (cmd_feature (Enable f) w') = Return 0 /\
  fs (snd (cmd_feature (Enable f) w')) = fs w' /\
  no_save (printed w' (cmd_feature (Enable f) w')) = true.
Proof.
  intros Hp Hin w'.
  pose proof (enable_known _ _ _ Hp Hin) as Hrun.
  assert (Hdisk : enabled_on_disk w = get_enabled_features state).
  { unfold enabled_on_disk. destruct Hp as [Hfs _]. now rewrite Hfs. }
  destruct (list_mem f (get_enabled_features state)) eqn:Hmem.
  - (* already enabled *)
    assert (Hw' : w' = print_success ("Feature '" ++ f ++ "' enabled") w)
      by (subst w'; now rewrite Hrun).
    assert (Hdisk' : enabled_on_disk w' = get_enabled_features state)
      by (rewrite Hw'; exact Hdisk).
    assert (Hp' : project w' state) by (rewrite Hw'; exact Hp).
    pose proof (enable_known _ _ _ Hp' Hin) as Hrun'. rewrite Hmem in Hrun'.
    apply list_mem_In in Hmem.
    split; [now rewrite Hrun|]. split; [now rewrite Hdisk'|].
    split.
    { intros _. rewrite Hrun. unfold print_success, emit.
      destruct Hp as [Hfs _]. now rewrite Hfs. }
    split; [now rewrite Hdisk, Hdisk'|].
    split.
    { rewrite Hdisk, Hdisk'. intros Hle.
      apply (count_occ_In string_dec) in Hmem. lia. }
    rewrite Hrun'. simpl. repeat split.
    now rewrite (printed_app w' _
                   [Stdout ("[OK] Feature '" ++ f ++ "' enabled")]).
  - (* newly enabled *)
    set (state' := set_enabled_features state (get_enabled_features state ++ [f])) in *.
    assert (Hw' : w' = print_success ("Feature '" ++ f ++ "' enabled")
                         (save_state state' w))
      by (subst w'; now rewrite Hrun).
    assert (Hp' : project w' state').
    { rewrite Hw'. split; [reflexivity|apply state_truthy_set_enabled_features]. }
    assert (Hdisk' : enabled_on_disk w' = (get_enabled_features state ++ [f])%list)
      by (rewrite Hw'; reflexivity).
    assert (Hmem' : list_mem f (get_enabled_features state') = true).
    { apply list_mem_In. simpl. apply in_or_app. right. now left. }
    pose proof (enable_known _ _ _ Hp' Hin) as Hrun'. rewrite Hmem' in Hrun'.
    apply list_mem_notIn in Hmem.
    split; [now rewrite Hrun|].
    split; [rewrite Hdisk'; apply in_or_app; right; now left|].
    split; [intros Hc; now elim Hmem|].
    split; [rewrite Hdisk, Hdisk'; now apply NoDup_append_fresh|].
    split.
    { rewrite Hdisk'. intros _. rewrite count_occ_app_one.
      apply (count_occ_not_In string_dec) in Hmem. now rewrite Hmem. }
    rewrite Hrun'. simpl. repeat split.
    now rewrite (printed_app w' _
                   [Stdout ("[OK] Feature '" ++ f ++ "' enabled")]).
Qed.

Lemma C9_enable_idempotent_witness :
  project demo_world demo_state /\
  In "crm" AVAILABLE_FEATURES /\
  cmd_feature (Enable "crm") demo_world =
    (Return 0,
     {| fs := Doc demo_state;
        trace := [Stdout "[OK] Feature 'crm' enabled"] |}).
Proof.
  assert (Hp : project demo_world demo_state) by (split; reflexivity).
  assert (Hin : In "crm" AVAILABLE_FEATURES) by (simpl; tauto).
  split; [exact Hp|]. split; [exact Hin|].
  destruct (C9_enable_idempotent demo_world demo_state "crm" Hp Hin)
    as (_ & _ & Hsame & _).
  apply Hsame. simpl. tauto.
Defined.

(** C10: on a project, [feature disable f] returns 0 for every [f], in
    [AVAILABLE_FEATURES] or not.  When [f] is not enabled it prints the
    success line only: nothing is saved and the state file is as before.
    [feature enable f], for its part, rejects an [f] that is not in
    [AVAILABLE_FEATURES]: it returns 1 with the error
    "Unknown feature: <f>" and saves nothing. *)
Theorem C10_disable_never_fails w state f :
  project w state ->
  fst (cmd_feature (Disable f) w) = Return 0 /\
  (~ In f (get_enabled_features state) ->
     cmd_feature (Disable f) w =
       (Return 0,
        {| fs := Doc state;
           trace := trace w ++
                    [Stdout ("[OK] Feature '" ++ f ++ "' disabled")] |}) /\
     no_save (printed w (cmd_feature (Disable f) w)) = true) /\
  (~ In f AVAILABLE_FEATURES ->
     cmd_feature (Enable f) w =
       (Return 1,
        {| fs := Doc state;
           trace := trace w ++ [Stderr ("[ERROR] Unknown feature: " ++ f)] |}) /\
     no_save (printed w (cmd_feature (Enable f) w)) = true).
Proof.
  intros Hp. rewrite !(cmd_feature_project _ _ _ Hp).
  destruct Hp as [Hfs _].
  split; [reflexivity|]. split.
  - intros Hnin. apply list_mem_notIn in Hnin.
    unfold feature_disable. rewrite Hnin.
    unfold print_success, emit. rewrite Hfs. split; [reflexivity|].
    now rewrite (printed_app w _
                   [Stdout ("[OK] Feature '" ++ f ++ "' disabled")]).
  - intros Hnin. apply list_mem_notIn in Hnin.
    unfold feature_enable. rewrite Hnin. simpl.
    unfold print_error, emit. rewrite Hfs. split; [reflexivity|].
    now rewrite (printed_app w _ [Stderr ("[ERROR] Unknown feature: " ++ f)]).
Qed.

Lemma C10_disable_never_fails_witness :
  project demo_world demo_state /\
  cmd_feature (Disable "teleport") demo_world =
    (Return 0,
     {| fs := Doc demo_state;
        trace := [Stdout "[OK] Feature 'teleport' disabled"] |}) /\
  cmd_feature (Enable "teleport") demo_world =
    (Return 1,
     {| fs := Doc demo_state;
        trace := [Stderr "[ERROR] Unknown feature: teleport"] |}).
Proof.
  assert (Hp : project demo_world demo_state) by (split; reflexivity).
  split; [exact Hp|].
  destruct (C10_disable_never_fails demo_world demo_state "teleport" Hp)
    as (_ & Hdis & Hen).
  split.
  - apply Hdis. simpl. intuition discriminate.
  - apply Hen. simpl. intuition discriminate.
Defined.

(* ------------------------------------------------------------------------- *)
(** ** Commands without a usable state file *)
(* ------------------------------------------------------------------------- *)

Lemma no_project_load w :
  no_project w = true ->
  load_state w = Return None \/
  exists s, load_state w = Return (Some s) /\ state_truthy s = false.
Proof.
  unfold no_project, load_state. destruct (fs w) as [| |s].
  - now left.
  - discriminate.
  - intros H. right. exists s. split; [reflexivity|].
    now destruct (state_truthy s).
Qed.

(** Run without a project -- the state file is missing or holds the empty
    object -- each of [task claim], [task release], [task locks],
    [task unlock], [task create], [feature enable], [feature disable],
    [feature list], [phase] and [decision add] returns 1, prints
    "No project found." on the error stream and does nothing else: the file
    is not created, nor written. *)
Theorem no_project_is_refused w :
  no_project w = true ->
  (forall args now,
     cmd_task args now w = (Return 1, print_error "No project found." w)) /\
  (forall args,
     cmd_feature args w = (Return 1, print_error "No project found." w)) /\
  (forall set,
     cmd_phase set w = (Return 1, print_error "No project found." w)) /\
  (forall flag,
     cmd_feature_list flag w = (Done 1, print_error "No project found." w)) /\
  (forall isoformat title description feature priority now,
     cmd_task_create isoformat title description feature priority now w
     = (Done 1, print_error "No project found." w)) /\
  (forall isoformat id title description rationale now,
     cmd_decision_add isoformat id title description rationale now w
     = (Done 1, print_error "No project found." w)) /\
  fs (print_error "No project found." w) = fs w.
Proof.
  intros Hnp.
  unfold cmd_task, cmd_feature, cmd_phase, cmd_feature_list,
    cmd_task_create, cmd_decision_add.
  destruct (no_project_load w Hnp) as [H | (s & H & Hs)];
    rewrite H; try rewrite Hs; simpl; repeat split.
Qed.

Lemma no_project_is_refused_witness :
  no_project empty_world = true /\
  cmd_task (Claim "TASK-001" None) T0 empty_world =
    (Return 1, print_error "No project found." empty_world).
Proof.
  split; [reflexivity|].
  exact (proj1 (no_project_is_refused empty_world eq_refl)
           (Claim "TASK-001" None) T0).
Defined.

(** After a [save_state] that stopped between its [open] and its
    [json.dump] the state file is empty, and it stays so: in any sequence of
    runs of [task claim], [task release], [task locks], [task unlock],
    [task create], [feature enable], [feature disable], [feature list],
    [phase] and [decision add], every run raises [JSONDecodeError] out of
    [load_state], prints nothing and leaves the file empty.  None of these
    commands repairs the file. *)
Theorem interrupted_save_blocks_commands isoformat (new : State) (w : World)
    (cs : list command) :
  fs (interrupted_save new w) = Truncated /\
  run_all isoformat cs (interrupted_save new w) =
    (map (fun _ => Uncaught (LoadFailed JSONDecodeError)) cs,
     interrupted_save new w).
Proof.
  split; [reflexivity|].
  induction cs as [|c cs IH]; [reflexivity|].
  assert (Hrun : run isoformat c (interrupted_save new w) =
                 (Uncaught (LoadFailed JSONDecodeError),
                  interrupted_save new w))
    by (destruct c; reflexivity).
  cbn [run_all map]. rewrite Hrun, IH. reflexivity.
Qed.

(* ------------------------------------------------------------------------- *)
(** ** What the lock and feature commands leave alone *)
(* ------------------------------------------------------------------------- *)

(** A task command on a project leaves a project behind, and changes neither
    the enabled features nor any key other than [task_locks]: claiming,
    releasing, unlocking and listing never change the task catalog. *)
Theorem cmd_task_frame args now w state :
  project w state ->
  exists state',
    project (snd (cmd_task args now w)) state' /\
    others state' = others state /\
    enabled_features state' = enabled_features state.
Proof.
  intros Hp. rewrite (cmd_task_project _ _ _ _ Hp).
  destruct args as [id role|id| |id].
  - unfold task_claim.
    destruct (Dict.get id (get_task_locks state)).
    + exists state. repeat split; apply Hp.
    + eexists. split; [split; [reflexivity|apply state_truthy_set_task_locks]|].
      split; reflexivity.
  - unfold task_release.
    destruct (Dict.mem id (get_task_locks state)); simpl.
    + eexists. split; [split; [reflexivity|apply state_truthy_set_task_locks]|].
      split; reflexivity.
    + exists state. repeat split; apply Hp.
  - unfold task_locks_cmd.
    destruct (Dict.is_empty (get_task_locks state));
      exists state; repeat split; apply Hp.
  - unfold task_unlock.
    destruct (Dict.mem id (get_task_locks state)); simpl.
    + eexists. split; [split; [reflexivity|apply state_truthy_set_task_locks]|].
      split; reflexivity.
    + exists state. repeat split; apply Hp.
Qed.

Lemma cmd_task_frame_witness :
  project demo_world demo_state /\
  exists state',
    project (snd (cmd_task (Claim "TASK-404" None) T0 demo_world)) state' /\
    others state' = others demo_state /\
    enabled_features state' = enabled_features demo_state.
Proof.
  assert (Hp : project demo_world demo_state) by (split; reflexivity).
  split; [exact Hp|].
  exact (cmd_task_frame (Claim "TASK-404" None) T0 demo_world demo_state Hp).
Defined.

(** [feature enable] and [feature disable] on a project leave a project
    behind, and change neither the task locks nor any key other than
    [enabled_features]. *)
Theorem cmd_feature_frame args w state :
  project w state ->
  exists state',
    project (snd (cmd_feature args w)) state' /\
    others state' = others state /\
    task_locks state' = task_locks state.
Proof.
  intros Hp. rewrite (cmd_feature_project _ _ _ Hp).
  destruct args as [id|id].
  - unfold feature_enable.
    destruct (list_mem id AVAILABLE_FEATURES); simpl.
    + destruct (list_mem id (get_enabled_features state)); simpl.
      * exists state. repeat split; apply Hp.
      * eexists.
        split; [split; [reflexivity|apply state_truthy_set_enabled_features]|].
        split; reflexivity.
    + exists state. repeat split; apply Hp.
  - unfold feature_disable.
    destruct (list_mem id (get_enabled_features state)); simpl.
    + eexists.
      split; [split; [reflexivity|apply state_truthy_set_enabled_features]|].
      split; reflexivity.
    + exists state. repeat split; apply Hp.
Qed.

Lemma cmd_feature_frame_witness :
  project locked_world locked_state /\
  exists state',
    project (snd (cmd_feature (Disable "crm") locked_world)) state' /\
    others state' = others locked_state /\
    task_locks state' = task_locks locked_state.
Proof.
  assert (Hp : project locked_world locked_state) by (split; reflexivity).
  split; [exact Hp|].
  exact (cmd_feature_frame (Disable "crm") locked_world locked_state Hp).
Defined.

(* ------------------------------------------------------------------------- *)
(** ** Sequences of lock commands *)
(* ------------------------------------------------------------------------- *)

Lemma Dict_del_set_fresh {V : Type} (k : string) (v : V) (d : list (string * V)) :
  Dict.get k d = None -> Dict.del k (Dict.set k v d) = d.
Proof.
  induction d as [|[k' v'] r IH]; simpl.
  - now rewrite String.eqb_refl.
  - destruct (String.eqb k k') eqn:E; [discriminate|].
    intros H. simpl. rewrite E. now rewrite IH.
Qed.

Lemma Dict_del_fresh {V : Type} (k : string) (d : list (string * V)) :
  Dict.get k d = None -> Dict.del k d = d.
Proof.
  induction d as [|[k' v'] r IH]; simpl; [reflexivity|].
  destruct (String.eqb k k'); [discriminate|].
  intros H. now rewrite IH.
Qed.

Lemma Dict_length_del {V : Type} (k : string) (v : V) (d : list (string * V)) :
  Dict.wf d -> Dict.get k d = Some v ->
  S (List.length (Dict.del k d)) = List.length d.
Proof.
  unfold Dict.wf. induction d as [|[k' v'] r IH]; simpl; [discriminate|].
  intros Hnd. inversion Hnd as [|? ? Hnin Hnd']; subst.
  destruct (String.eqb k k') eqn:E.
  - intros _. apply String.eqb_eq in E. subst k'.
    rewrite Dict_del_fresh; [reflexivity|].
    now apply Dict_get_None_keys.
  - intros Hget. simpl. f_equal. now apply IH.
Qed.

Lemma project_locks_on_disk w state :
  project w state -> locks_on_disk w = lease_table state.
Proof.
  intros [Hfs _]. unfold locks_on_disk. now rewrite Hfs.
Qed.

(** The world after a [task release] that found a lease. *)
Lemma release_success_world w state id now l :
  project w state ->
  Dict.get id (lease_table state) = Some l ->
  let state' := set_task_locks state (Dict.del id (lease_table state)) in
  fst (cmd_task (Release id) now w) = Return 0 /\
  project (snd (cmd_task (Release id) now w)) state'.
Proof.
  intros Hp Hget state'. rewrite (release_locked _ _ _ _ _ Hp Hget). simpl.
  split; [reflexivity|].
  split; [reflexivity|apply state_truthy_set_task_locks].
Qed.

(** Claiming a free task and releasing it restores the lease table: both
    commands return 0 and the table on disk is, entry for entry and in the
    same order, the table from before the claim; the other keys of the state
    are as before. *)
Theorem claim_then_release_restores w state id role now now' :
  project w state ->
  Dict.get id (lease_table state) = None ->
  let w1 := snd (cmd_task (Claim id role) now w) in
  let w2 := snd (cmd_task (Release id) now' w1) in
  fst (cmd_task (Claim id role) now w) = Return 0 /\
  fst (cmd_task (Release id) now' w1) = Return 0 /\
  locks_on_disk w2 = locks_on_disk w /\
  others_on_disk w2 = others_on_disk w /\
  enabled_on_disk w2 = enabled_on_disk w.
Proof.
  intros Hp Hfree w1 w2.
  assert (Hok : fst (cmd_task (Claim id role) now w) = Return 0)
    by now rewrite (claim_free _ _ _ _ _ Hp Hfree).
  destruct (claim_success_world _ _ _ _ _ Hp Hok) as (_ & Hp1 & Hget1).
  fold w1 in Hp1.
  destruct (release_success_world _ _ _ now' _ Hp1 Hget1) as [Hok2 Hp2].
  fold w2 in Hp2.
  split; [assumption|]. split; [assumption|].
  destruct Hp as [Hfs _]. destruct Hp2 as [Hfs2 _].
  unfold locks_on_disk, others_on_disk, enabled_on_disk.
  rewrite Hfs, Hfs2. simpl. repeat split.
  unfold lease_table at 1 2. simpl.
  now apply Dict_del_set_fresh.
Qed.

Lemma claim_then_release_restores_witness :
  project locked_world locked_state /\
  Dict.get "TASK-002" (lease_table locked_state) = None /\
  locks_on_disk
    (snd (cmd_task (Release "TASK-002") (T0 + 5)
            (snd (cmd_task (Claim "TASK-002" (Some "qa-agent")) T0
                    locked_world))))
  = locks_on_disk locked_world.
Proof.
  assert (Hp : project locked_world locked_state) by (split; reflexivity).
  split; [exact Hp|]. split; [reflexivity|].
  exact (proj1 (proj2 (proj2
           (claim_then_release_restores locked_world locked_state "TASK-002"
              (Some "qa-agent") T0 (T0 + 5) Hp eq_refl)))).
Defined.

(** The number of locks, which [status] reports, moves by one: an accepted
    claim adds exactly one entry to the table, an accepted release of a
    table with pairwise distinct keys removes exactly one, and a rejected
    claim, a rejected release and the listing leave the count as it is. *)
Theorem lock_count_moves_by_one w state id now :
  project w state ->
  Dict.wf (lease_table state) ->
  (forall role,
     List.length (locks_on_disk (snd (cmd_task (Claim id role) now w))) =
       match Dict.get id (lease_table state) with
       | None => S (List.length (lease_table state))
       | Some _ => List.length (lease_table state)
       end) /\
  (match Dict.get id (lease_table state) with
   | None =>
       List.length (locks_on_disk (snd (cmd_task (Release id) now w)))
       = List.length (lease_table state)
   | Some _ =>
       S (List.length (locks_on_disk (snd (cmd_task (Release id) now w))))
       = List.length (lease_table state)
   end) /\
  List.length (locks_on_disk (snd (cmd_task Locks now w)))
    = List.length (lease_table state).
Proof.
  intros Hp Hwf. split; [|split].
  - intros role. destruct (Dict.get id (lease_table state)) as [l|] eqn:E.
    + rewrite (claim_locked _ _ _ _ _ _ Hp E).
      unfold locks_on_disk. simpl. now rewrite (proj1 Hp).
    + rewrite (claim_free _ _ _ _ _ Hp E). unfold locks_on_disk. simpl.
      unfold lease_table at 1. simpl.
      rewrite (Dict_set_fresh _ _ _ E).
      cbn [get_task_locks set_task_locks task_locks].
      rewrite length_app. simpl. now rewrite Nat.add_1_r.
  - destruct (Dict.get id (lease_table state)) as [l|] eqn:E.
    + rewrite (release_locked _ _ _ _ _ Hp E). unfold locks_on_disk. simpl.
      unfold lease_table at 1. simpl. eapply Dict_length_del; eauto.
    + rewrite (release_unlocked _ _ _ _ Hp E).
      unfold locks_on_disk. simpl. now rewrite (proj1 Hp).
  - rewrite (cmd_task_project _ _ _ _ Hp). unfold task_locks_cmd.
    destruct (Dict.is_empty (get_task_locks state)); simpl;
      unfold locks_on_disk; simpl; destruct Hp as [Hfs _]; now rewrite Hfs.
Qed.

Lemma lock_count_moves_by_one_witness :
  project locked_world locked_state /\
  Dict.wf (lease_table locked_state) /\
  S (List.length
       (locks_on_disk (snd (cmd_task (Release "TASK-001") T0 locked_world))))
  = List.length (lease_table locked_state).
Proof.
  assert (Hp : project locked_world locked_state) by (split; reflexivity).
  assert (Hwf : Dict.wf (lease_table locked_state)).
  { repeat constructor. simpl. tauto. }
  split; [exact Hp|]. split; [exact Hwf|].
  exact (proj1 (proj2
           (lock_count_moves_by_one locked_world locked_state "TASK-001" T0
              Hp Hwf))).
Defined.

(** Releasing is not idempotent: after a [task release] or [task unlock]
    that returned 0, a second release or unlock of the same task returns 1
    with "Task <id> is not locked" and saves nothing. *)
Theorem second_release_is_refused w id now now' :
  (fst (cmd_task (Release id) now w) = Return 0 ->
   forall w1, w1 = snd (cmd_task (Release id) now w) ->
     cmd_task (Release id) now' w1 =
       (Return 1, print_error ("Task " ++ id ++ " is not locked") w1) /\
     cmd_task (Unlock id) now' w1 =
       (Return 1, print_error ("Task " ++ id ++ " is not locked") w1)) /\
  (fst (cmd_task (Unlock id) now w) = Return 0 ->
   forall w1, w1 = snd (cmd_task (Unlock id) now w) ->
     cmd_task (Release id) now' w1 =
       (Return 1, print_error ("Task " ++ id ++ " is not locked") w1) /\
     cmd_task (Unlock id) now' w1 =
       (Return 1, print_error ("Task " ++ id ++ " is not locked") w1)).
Proof.
  assert (Hrel : forall state l,
            project w state ->
            Dict.get id (lease_table state) = Some l ->
            forall w1,
              project w1 (set_task_locks state (Dict.del id (lease_table state))) ->
              cmd_task (Release id) now' w1 =
                (Return 1, print_error ("Task " ++ id ++ " is not locked") w1) /\
              cmd_task (Unlock id) now' w1 =
                (Return 1, print_error ("Task " ++ id ++ " is not locked") w1)).
  { intros state l Hp Hget w1 Hp1.
    assert (Hnone : Dict.get id (lease_table
              (set_task_locks state (Dict.del id (lease_table state)))) = None)
      by apply Dict_get_del_same.
    split; [now apply (release_unlocked _ _ _ _ Hp1)
           |now apply (unlock_unlocked _ _ _ _ Hp1)]. }
  split; intros Hok w1 ->;
    destruct (cmd_task_success_project _ _ _ Hok) as [state Hp];
    destruct (Dict.get id (lease_table state)) as [l|] eqn:E.
  - apply (Hrel state l Hp E).
    rewrite (release_locked _ _ _ _ _ Hp E). simpl.
    split; [reflexivity|apply state_truthy_set_task_locks].
  - rewrite (release_unlocked _ _ _ _ Hp E) in Hok. discriminate.
  - apply (Hrel state l Hp E).
    rewrite (unlock_locked _ _ _ _ _ Hp E). simpl.
    split; [reflexivity|apply state_truthy_set_task_locks].
  - rewrite (unlock_unlocked _ _ _ _ Hp E) in Hok. discriminate.
Qed.

Lemma second_release_is_refused_witness :
  fst (cmd_task (Release "TASK-001") T0 locked_world) = Return 0 /\
  cmd_task (Release "TASK-001") (T0 + 1)
    (snd (cmd_task (Release "TASK-001") T0 locked_world)) =
  (Return 1,
   print_error "Task TASK-001 is not locked"
     (snd (cmd_task (Release "TASK-001") T0 locked_world))).
Proof.
  split; [reflexivity|].
  exact (proj1 (proj1 (second_release_is_refused locked_world "TASK-001" T0
                         (T0 + 1)) eq_refl _ eq_refl)).
Defined.

(* ------------------------------------------------------------------------- *)
(** ** Disabling features *)
(* ------------------------------------------------------------------------- *)

Lemma list_remove_append_fresh (l : list string) (f : string) :
  ~ In f l -> list_remove f (l ++ [f]) = l.
Proof.
  induction l as [|y r IH]; simpl; intros Hnin.
  - now rewrite String.eqb_refl.
  - destruct (String.eqb f y) eqn:E.
    + apply String.eqb_eq in E. subst. tauto.
    + rewrite IH; tauto.
Qed.

Lemma count_occ_list_remove_same (l : list string) (f : string) :
  In f l ->
  S (count_occ string_dec (list_remove f l) f) = count_occ string_dec l f.
Proof.
  induction l as [|y r IH]; simpl; [tauto|].
  intros Hin. destruct (String.eqb f y) eqn:E.
  - apply String.eqb_eq in E. subst y.
    destruct (string_dec f f) as [_|Hne]; [reflexivity|now elim Hne].
  - apply String.eqb_neq in E. simpl.
    destruct (string_dec y f) as [Heq|_]; [now elim E|].
    apply IH. destruct Hin as [Hin|Hin]; [now elim E|assumption].
Qed.

Lemma count_occ_list_remove_other (l : list string) (f g : string) :
  g <> f ->
  count_occ string_dec (list_remove f l) g = count_occ string_dec l g.
Proof.
  intros Hne. induction l as [|y r IH]; simpl; [reflexivity|].
  destruct (String.eqb f y) eqn:E.
  - apply String.eqb_eq in E. subst y.
    destruct (string_dec f g) as [Heq|_]; [now elim Hne|reflexivity].
  - simpl. now rewrite IH.
Qed.

Lemma disable_enabled w state f :
  project w state ->
  In f (get_enabled_features state) ->
  cmd_feature (Disable f) w =
    (Return 0,
     print_success ("Feature '" ++ f ++ "' disabled")
       (save_state
          (set_enabled_features state
             (list_remove f (get_enabled_features state))) w)).
Proof.
  intros Hp Hin. rewrite (cmd_feature_project _ _ _ Hp).
  unfold feature_disable. apply list_mem_In in Hin. now rewrite Hin.
Qed.

(** Enabling a known feature that was not enabled and then disabling it
    restores the list of enabled features, in content and order; both
    commands return 0. *)
Theorem enable_then_disable_restores w state f :
  project w state ->
  In f AVAILABLE_FEATURES ->
  ~ In f (get_enabled_features state) ->
  let w1 := snd (cmd_feature (Enable f) w) in
  let w2 := snd (cmd_feature (Disable f) w1) in
  fst (cmd_feature (Enable f) w) = Return 0 /\
  fst (cmd_feature (Disable f) w1) = Return 0 /\
  enabled_on_disk w2 = enabled_on_disk w /\
  locks_on_disk w2 = locks_on_disk w /\
  others_on_disk w2 = others_on_disk w.
Proof.
  intros Hp Hknown Hnin w1 w2.
  pose proof (enable_known _ _ _ Hp Hknown) as Hrun.
  assert (Hmem : list_mem f (get_enabled_features state) = false)
    by now apply list_mem_notIn.
  rewrite Hmem in Hrun.
  set (state1 := set_enabled_features state (get_enabled_features state ++ [f]))
    in *.
  assert (Hp1 : project w1 state1).
  { subst w1. rewrite Hrun. simpl.
    split; [reflexivity|apply state_truthy_set_enabled_features]. }
  assert (Hin1 : In f (get_enabled_features state1)).
  { simpl. apply in_or_app. right. now left. }
  pose proof (disable_enabled _ _ _ Hp1 Hin1) as Hrun2.
  split; [now rewrite Hrun|]. split; [now rewrite Hrun2|].
  subst w2. rewrite Hrun2.
  unfold enabled_on_disk, locks_on_disk, others_on_disk. simpl.
  destruct Hp as [Hfs _]. rewrite Hfs.
  repeat split.
  now apply list_remove_append_fresh.
Qed.

Lemma enable_then_disable_restores_witness :
  project demo_world demo_state /\
  In "audit" AVAILABLE_FEATURES /\
  ~ In "audit" (get_enabled_features demo_state) /\
  enabled_on_disk
    (snd (cmd_feature (Disable "audit")
            (snd (cmd_feature (Enable "audit") demo_world))))
  = enabled_on_disk demo_world.
Proof.
  assert (Hp : project demo_world demo_state) by (split; reflexivity).
  assert (Hin : In "audit" AVAILABLE_FEATURES) by (simpl; tauto).
  assert (Hnin : ~ In "audit" (get_enabled_features demo_state))
    by (simpl; intuition discriminate).
  split; [exact Hp|]. split; [exact Hin|]. split; [exact Hnin|].
  exact (proj1 (proj2 (proj2
           (enable_then_disable_restores demo_world demo_state "audit"
              Hp Hin Hnin)))).
Defined.

(** Disabling an enabled feature removes one occurrence of it and nothing
    else: it then occurs once less and every other feature as often as
    before.  On a list without duplicates the feature is no longer enabled
    afterwards and the list is still without duplicates; in a list that held
    it twice (a state file edited by hand) it is still enabled after one
    [feature disable]. *)
Theorem disable_removes_one_occurrence w state f :
  project w state ->
  In f (get_enabled_features state) ->
  let w' := snd (cmd_feature (Disable f) w) in
  fst (cmd_feature (Disable f) w) = Return 0 /\
  S (count_occ string_dec (enabled_on_disk w') f)
    = count_occ string_dec (enabled_on_disk w) f /\
  (forall g, g <> f ->
     count_occ string_dec (enabled_on_disk w') g
     = count_occ string_dec (enabled_on_disk w) g) /\
  (NoDup (enabled_on_disk w) ->
     ~ In f (enabled_on_disk w') /\ NoDup (enabled_on_disk w')) /\
  ((2 <= count_occ string_dec (enabled_on_disk w) f)%nat ->
     In f (enabled_on_disk w')).
Proof.
  intros Hp Hin w'.
  pose proof (disable_enabled _ _ _ Hp Hin) as Hrun.
  assert (Hd : enabled_on_disk w = get_enabled_features state).
  { unfold enabled_on_disk. destruct Hp as [Hfs _]. now rewrite Hfs. }
  assert (Hd' : enabled_on_disk w'
                = list_remove f (get_enabled_features state))
    by (subst w'; now rewrite Hrun).
  pose proof (count_occ_list_remove_same _ _ Hin) as Hsame.
  pose proof (count_occ_list_remove_other (get_enabled_features state) f)
    as Hother.
  rewrite Hd, Hd'.
  split; [now rewrite Hrun|]. split; [assumption|]. split; [assumption|].
  split.
  - intros Hnd.
    assert (Hone : count_occ string_dec (get_enabled_features state) f = 1%nat).
    { apply NoDup_count_occ' with (decA := string_dec); assumption. }
    split.
    + apply (count_occ_not_In string_dec). lia.
    + apply (NoDup_count_occ string_dec). intros g.
      destruct (string_dec g f) as [->|Hne].
      * lia.
      * rewrite (Hother g Hne).
        now apply (NoDup_count_occ string_dec).
  - intros Htwo. apply (count_occ_In string_dec). lia.
Qed.

Lemma disable_removes_one_occurrence_witness :
  project demo_world demo_state /\
  In "crm" (get_enabled_features demo_state) /\
  S (count_occ string_dec
       (enabled_on_disk (snd (cmd_feature (Disable "crm") demo_world))) "crm")
  = count_occ string_dec (enabled_on_disk demo_world) "crm".
Proof.
  assert (Hp : project demo_world demo_state) by (split; reflexivity).
  assert (Hin : In "crm" (get_enabled_features demo_state))
    by (simpl; tauto).
  split; [exact Hp|]. split; [exact Hin|].
  exact (proj1 (proj2
           (disable_removes_one_occurrence demo_world demo_state "crm"
              Hp Hin))).
Defined.

(* ------------------------------------------------------------------------- *)
(** ** Workflow phases *)
(* ------------------------------------------------------------------------- *)

Lemma fs_print_lines ls w : fs (print_lines ls w) = fs w.
Proof.
  unfold print_lines. revert w.
  induction ls as [|l r IH]; intros w; simpl; [reflexivity|].
  now rewrite IH.
Qed.

Lemma trace_print_lines ls w :
  trace (print_lines ls w) = (trace w ++ map Stdout ls)%list.
Proof.
  unfold print_lines. revert w.
  induction ls as [|l r IH]; intros w; simpl.
  - now rewrite app_nil_r.
  - rewrite IH. simpl. now rewrite <- app_assoc.
Qed.

Lemma print_lines_world ls w :
  print_lines ls w = {| fs := fs w; trace := trace w ++ map Stdout ls |}.
Proof.
  rewrite <- (trace_print_lines ls w), <- (fs_print_lines ls w).
  now destruct (print_lines ls w).
Qed.

Lemma Dict_set_not_empty {V : Type} (k : string) (v : V) (d : list (string * V)) :
  Dict.is_empty (Dict.set k v d) = false.
Proof.
  destruct d as [|[k' v'] r]; [reflexivity|].
  cbn -[String.eqb]. now destruct (String.eqb k k').
Qed.

Lemma state_truthy_set_other s k v : state_truthy (set_other s k v) = true.
Proof.
  unfold state_truthy, set_other. cbn [others].
  now rewrite Dict_set_not_empty.
Qed.

Lemma cmd_phase_project set w state :
  project w state ->
  cmd_phase set w =
    match set with
    | Some p => if String.eqb p "" then phase_show state w
                else phase_set state p w
    | None => phase_show state w
    end.
Proof.
  intros [Hfs Htr]. unfold cmd_phase, load_state. now rewrite Hfs, Htr.
Qed.

Lemma In_WORKFLOW_PHASES p :
  In p WORKFLOW_PHASES ->
  p = "DISCOVERY" \/ p = "ARCHITECTURE" \/ p = "PLANNING" \/ p = "BACKEND" \/
  p = "FRONTEND" \/ p = "QA" \/ p = "DEPLOYMENT".
Proof.
  simpl. intuition.
Qed.

Lemma current_index_known p :
  In p WORKFLOW_PHASES ->
  nth_error WORKFLOW_PHASES (current_index (JStr p)) = Some p.
Proof.
  intros H. apply In_WORKFLOW_PHASES in H.
  repeat (destruct H as [->|H]; [reflexivity|]). now subst.
Qed.

Lemma current_index_bound c : (current_index c < 7)%nat.
Proof.
  destruct c as [|b|n|p|l|d]; unfold current_index; try lia.
  destruct (list_mem p WORKFLOW_PHASES) eqn:E; [|lia].
  apply list_mem_In, In_WORKFLOW_PHASES in E. apply Nat.ltb_lt.
  repeat (destruct E as [->|E]; [vm_compute; reflexivity|]).
  subst. vm_compute. reflexivity.
Qed.

Lemma phase_lines_nth i j q :
  (i < 7)%nat ->
  nth_error WORKFLOW_PHASES j = Some q ->
  nth_error (phase_lines i) j =
    Some (if Nat.ltb j i then "    " ++ str_nat (j + 1) ++ ". " ++ q ++ " [DONE]"
          else if Nat.eqb j i
               then ">>> " ++ str_nat (j + 1) ++ ". " ++ q ++ " [CURRENT]"
               else "    " ++ str_nat (j + 1) ++ ". " ++ q ++ " ").
Proof.
  intros Hi Hj.
  assert (Hj7 : (j < 7)%nat).
  { change 7%nat with (List.length WORKFLOW_PHASES).
    apply nth_error_Some. rewrite Hj. discriminate. }
  do 7 (destruct i as [|i]; [
    do 7 (destruct j as [|j]; [injection Hj as <-; reflexivity|]); lia |]).
  lia.
Qed.

(** [phase --set p] with a non-empty [p] that is not one of the seven
    workflow phases, spelled in capitals, is a validation error: the command
    returns 1, prints the list of phases on the error stream and saves
    nothing.  An empty [--set] is not rejected: it shows the listing, like
    [phase] alone. *)
Theorem phase_set_rejects_unknown w state p :
  project w state ->
  p <> "" ->
  ~ In p WORKFLOW_PHASES ->
  cmd_phase (Some p) w =
    (Return 1,
     {| fs := Doc state;
        trace := trace w ++
          [Stderr ("[ERROR] Invalid phase. Must be one of: DISCOVERY, "
                   ++ "ARCHITECTURE, PLANNING, BACKEND, FRONTEND, QA, "
                   ++ "DEPLOYMENT")] |}) /\
  cmd_phase (Some "") w = cmd_phase None w.
Proof.
  intros Hp Hne Hnin. rewrite !(cmd_phase_project _ _ _ Hp).
  apply String.eqb_neq in Hne. rewrite Hne.
  apply list_mem_notIn in Hnin. unfold phase_set. rewrite Hnin. simpl.
  unfold print_error, emit. rewrite (proj1 Hp). split; reflexivity.
Qed.

Lemma phase_set_rejects_unknown_witness :
  project demo_world demo_state /\
  cmd_phase (Some "qa") demo_world =
    (Return 1,
     {| fs := Doc demo_state;
        trace :=
          [Stderr ("[ERROR] Invalid phase. Must be one of: DISCOVERY, "
                   ++ "ARCHITECTURE, PLANNING, BACKEND, FRONTEND, QA, "
                   ++ "DEPLOYMENT")] |}).
Proof.
  assert (Hp : project demo_world demo_state) by (split; reflexivity).
  split; [exact Hp|].
  refine (proj1 (phase_set_rejects_unknown demo_world demo_state "qa" Hp _ _)).
  - discriminate.
  - simpl. intuition discriminate.
Defined.

(** [phase --set p] with one of the workflow phases returns 0 and saves the
    state in which the key [phase] holds [p]; every other key, the enabled
    features and the task locks are as before.  Any phase may be set from
    any other: the order of the phases is not enforced.  The listing that
    follows marks [p] as the current phase. *)
Theorem phase_set_then_show w state p :
  project w state ->
  In p WORKFLOW_PHASES ->
  let state' := set_other state "phase" (JStr p) in
  let w' := snd (cmd_phase (Some p) w) in
  cmd_phase (Some p) w =
    (Return 0,
     {| fs := Doc state';
        trace := trace w ++ [Saved state'; Stdout ("[OK] Phase set to " ++ p)] |})
  /\ Dict.get "phase" (others state') = Some (JStr p)
  /\ (forall k, k <> "phase" ->
        Dict.get k (others state') = Dict.get k (others state))
  /\ enabled_features state' = enabled_features state
  /\ task_locks state' = task_locks state
  /\ exists i,
       nth_error WORKFLOW_PHASES i = Some p /\
       cmd_phase None w' =
         (Return 0,
          {| fs := Doc state';
             trace := trace w' ++
                      Header "Workflow Phases" :: map Stdout (phase_lines i) |})
       /\ nth_error (phase_lines i) i =
            Some (">>> " ++ str_nat (i + 1) ++ ". " ++ p ++ " [CURRENT]").
Proof.
  intros Hp Hin state' w'.
  assert (Hne : String.eqb p "" = false).
  { apply String.eqb_neq. intros ->. simpl in Hin. intuition discriminate. }
  assert (Hrun : cmd_phase (Some p) w =
            (Return 0, print_success ("Phase set to " ++ p) (save_state state' w))).
  { rewrite (cmd_phase_project _ _ _ Hp), Hne. unfold phase_set.
    apply list_mem_In in Hin. now rewrite Hin. }
  assert (Hp' : project w' state').
  { subst w'. rewrite Hrun. split; [reflexivity|].
    apply state_truthy_set_other. }
  split.
  { rewrite Hrun. unfold print_success, emit, save_state. simpl.
    now rewrite <- app_assoc. }
  split; [apply Dict_get_set_same|].
  split; [intros k Hk; now apply Dict_get_set_other|].
  split; [reflexivity|]. split; [reflexivity|].
  exists (current_index (JStr p)).
  pose proof (current_index_known p Hin) as Hnth.
  split; [assumption|]. split.
  - rewrite (cmd_phase_project _ _ _ Hp'). unfold phase_show.
    replace (Dict.get "phase" (others state')) with (Some (JStr p))
      by (symmetry; apply Dict_get_set_same).
    rewrite print_lines_world. simpl. rewrite (proj1 Hp').
    now rewrite <- app_assoc.
  - rewrite (phase_lines_nth _ _ p (current_index_bound _) Hnth).
    now rewrite Nat.ltb_irrefl, Nat.eqb_refl.
Qed.

Lemma phase_set_then_show_witness :
  project demo_world demo_state /\
  In "QA" WORKFLOW_PHASES /\
  cmd_phase (Some "QA") demo_world =
    (Return 0,
     {| fs := Doc (set_other demo_state "phase" (JStr "QA"));
        trace := [Saved (set_other demo_state "phase" (JStr "QA"));
                  Stdout "[OK] Phase set to QA"] |}).
Proof.
  assert (Hp : project demo_world demo_state) by (split; reflexivity).
  assert (Hin : In "QA" WORKFLOW_PHASES) by (simpl; tauto).
  split; [exact Hp|]. split; [exact Hin|].
  exact (proj1 (phase_set_then_show demo_world demo_state "QA" Hp Hin)).
Defined.

(** [phase] alone returns 0, saves nothing and prints, under its header, the
    seven phases in order, numbered from 1: the phases before the current
    one are marked [DONE], the current one is marked with [>>>] and
    [CURRENT], the later ones are unmarked.  The current phase is the stored
    one when it is a workflow phase; when the key is missing, or holds
    anything else, it is the first phase, DISCOVERY. *)
Theorem phase_show_marks_progress w state :
  project w state ->
  exists i,
    (i < 7)%nat /\
    (forall p, Dict.get "phase" (others state) = Some (JStr p) ->
       In p WORKFLOW_PHASES -> nth_error WORKFLOW_PHASES i = Some p) /\
    ((forall p, Dict.get "phase" (others state) = Some (JStr p) ->
        ~ In p WORKFLOW_PHASES) -> i = 0%nat) /\
    cmd_phase None w =
      (Return 0,
       {| fs := Doc state;
          trace := trace w ++
                   Header "Workflow Phases" :: map Stdout (phase_lines i) |}) /\
    List.length (phase_lines i) = 7%nat /\
    (forall j q, nth_error WORKFLOW_PHASES j = Some q ->
       nth_error (phase_lines i) j =
         Some (if Nat.ltb j i
               then "    " ++ str_nat (j + 1) ++ ". " ++ q ++ " [DONE]"
               else if Nat.eqb j i
                    then ">>> " ++ str_nat (j + 1) ++ ". " ++ q ++ " [CURRENT]"
                    else "    " ++ str_nat (j + 1) ++ ". " ++ q ++ " ")).
Proof.
  intros Hp.
  set (current := match Dict.get "phase" (others state) with
                  | Some v => v
                  | None => JStr "DISCOVERY"
                  end).
  exists (current_index current).
  split; [apply current_index_bound|].
  split.
  { intros p Hget Hin. subst current. rewrite Hget.
    now apply current_index_known. }
  split.
  { intros Hunknown. subst current.
    destruct (Dict.get "phase" (others state)) as [[|b|n|p|l|d]|];
      try reflexivity.
    unfold current_index. specialize (Hunknown p eq_refl).
    apply list_mem_notIn in Hunknown. now rewrite Hunknown. }
  split.
  { rewrite (cmd_phase_project _ _ _ Hp). unfold phase_show.
    fold current. rewrite print_lines_world. simpl. rewrite (proj1 Hp).
    now rewrite <- app_assoc. }
  split; [reflexivity|].
  intros j q Hj. apply phase_lines_nth; [apply current_index_bound|assumption].
Qed.

Lemma phase_show_marks_progress_witness :
  project demo_world demo_state /\
  exists i,
    (i < 7)%nat /\
    (forall p, Dict.get "phase" (others demo_state) = Some (JStr p) ->
       In p WORKFLOW_PHASES -> nth_error WORKFLOW_PHASES i = Some p) /\
    cmd_phase None demo_world =
      (Return 0,
       {| fs := Doc demo_state;
          trace := Header "Workflow Phases" :: map Stdout (phase_lines i) |}).
Proof.
  assert (Hp : project demo_world demo_state) by (split; reflexivity).
  split; [exact Hp|].
  destruct (phase_show_marks_progress demo_world demo_state Hp)
    as (i & Hi & Hknown & _ & Hrun & _).
  exists i. split; [exact Hi|]. split; [exact Hknown|exact Hrun].
Defined.

(* ------------------------------------------------------------------------- *)
(** ** The text of a table *)
(* ------------------------------------------------------------------------- *)

Lemma String_length_append (s1 s2 : string) :
  String.length (s1 ++ s2) = (String.length s1 + String.length s2)%nat.
Proof.
  induction s1 as [|a s1 IH]; simpl; [reflexivity|]. now rewrite IH.
Qed.

Lemma length_repeat_char (c : string) (n : nat) :
  String.length c = 1%nat -> String.length (repeat_string c n) = n.
Proof.
  intros Hc. induction n as [|n IH]; simpl; [reflexivity|].
  rewrite String_length_append, Hc, IH. reflexivity.
Qed.








Lemma cells_at_short (i : nat) (rows : list (list string)) :
  Exists (fun r => (List.length r <= i)%nat) rows ->
  cells_at i rows = None.
Proof.
  induction 1 as [row rows Hshort | row rows _ IH]; simpl.
  - apply nth_error_None in Hshort. now rewrite Hshort.
  - destruct (nth_error row i); [|reflexivity]. now rewrite IH.
Qed.

Lemma list_max_In (x : nat) (l : list nat) : In x l -> (x <= list_max l)%nat.
Proof.
  intros Hin.
  assert (H : Forall (fun k => (k <= list_max l)%nat) l)
    by now apply list_max_le.
  now apply (proj1 (Forall_forall _ _) H).
Qed.


Lemma col_widths_at_short (i : nat) (idx : list nat) (rows : list (list string)) :
  In i idx -> col_width i rows = None -> col_widths_at idx rows = None.
Proof.
  intros Hin Hnone. induction idx as [|j idx IH]; simpl; [now elim Hin|].
  destruct Hin as [->|Hin].
  - now rewrite Hnone.
  - destruct (col_width j rows); [|reflexivity]. now rewrite IH.
Qed.






(** A row with fewer cells than there are headers makes [print_table] raise
    [IndexError] while it measures the columns: nothing of the table is
    printed, not even the rows before the short one. *)
Theorem print_table_text_short_row headers rows w :
  Exists (fun r => (List.length r < List.length headers)%nat) rows ->
  print_table_text headers rows w = (Some IndexError, w).
Proof.
  intros Hex. unfold print_table_text, col_widths.
  apply Exists_exists in Hex. destruct Hex as (r & Hr & Hshort).
  rewrite (col_widths_at_short (List.length r)); [reflexivity| |].
  - apply in_seq. lia.
  - unfold col_width. rewrite cells_at_short; [reflexivity|].
    apply Exists_cons_tl. apply Exists_exists. exists r. split; [assumption|lia].
Qed.

Lemma print_table_text_short_row_witness :
  print_table_text ["Task"; "Agent"] [["TASK-001"; "qa"]; ["TASK-002"]]
    demo_world = (Some IndexError, demo_world).
Proof.
  apply print_table_text_short_row.
  apply Exists_cons_tl, Exists_cons_hd. simpl. lia.
Defined.

(* ------------------------------------------------------------------------- *)
(** ** Listing the features *)
(* ------------------------------------------------------------------------- *)

Lemma cmd_feature_list_project flag w state :
  project w state ->
  cmd_feature_list flag w = feature_list state flag w.
Proof.
  intros [Hfs Htr]. unfold cmd_feature_list, load_state. now rewrite Hfs, Htr.
Qed.

Lemma col_widths_features enabled :
  col_widths ["Feature"; "Status"] (feature_rows enabled)
  = Some [13%nat; status_width enabled].
Proof. reflexivity. Qed.

Lemma status_width_bounds enabled :
  (7 <= status_width enabled <= 8)%nat.
Proof.
  unfold status_width. split.
  - apply Nat.le_trans
      with (str_len (feature_status enabled "payments")).
    + unfold feature_status. destruct (list_mem "payments" enabled); simpl; lia.
    + apply list_max_In. right. left. reflexivity.
  - apply list_max_le. constructor; [simpl; lia|].
    apply Forall_forall. intros n Hn.
    apply in_map_iff in Hn. destruct Hn as (s & <- & Hs).
    apply in_map_iff in Hs. destruct Hs as (f & <- & _).
    unfold feature_status. destruct (list_mem f enabled); simpl; lia.
Qed.

Lemma print_rows_two_columns n0 n1 (st : string -> string) (l : list string) w :
  print_rows [n0; n1] (map (fun f => [f; st f]) l) w =
    (None,
     {| fs := fs w;
        trace := trace w ++
                 map (fun f => Stdout (ljust n0 f ++ " | " ++ ljust n1 (st f))) l |}).
Proof.
  revert w. induction l as [|f l IH]; intros w; simpl.
  - rewrite app_nil_r. now destruct w.
  - rewrite IH. simpl. now rewrite <- app_assoc.
Qed.

(** [feature list] on a project returns 0 and saves nothing.  With
    [--enabled] it prints, under its header, one line per entry of
    [enabled_features], in order, known to the program or not.  Without, it
    prints the aligned table of the eleven available features, in their
    fixed order, each with "Enabled" when it is among the enabled features
    and "Disabled" otherwise; an enabled feature that is not an available
    one does not appear in the table. *)
Theorem feature_list_shows w state :
  project w state ->
  let enabled := get_enabled_features state in
  cmd_feature_list true w =
    (Done 0,
     {| fs := Doc state;
        trace := trace w ++
                 Header "Enabled Features"
                 :: map (fun f => Stdout ("  - " ++ f)) enabled |}) /\
  exists n,
    (7 <= n <= 8)%nat /\
    cmd_feature_list false w =
      (Done 0,
       {| fs := Doc state;
          trace := trace w ++
            Header "All Features"
            :: Stdout (ljust 13 "Feature" ++ " | " ++ ljust n "Status")
            :: Stdout (repeat_string "-" 13 ++ "-+-" ++ repeat_string "-" n)
            :: map (fun f =>
                      Stdout (ljust 13 f ++ " | " ++
                              ljust n (if list_mem f enabled
                                       then "Enabled" else "Disabled")))
                   AVAILABLE_FEATURES |}).
Proof.
  intros Hp enabled. rewrite !(cmd_feature_list_project _ _ _ Hp).
  destruct Hp as [Hfs _]. split.
  - unfold feature_list. rewrite print_lines_world. simpl. rewrite Hfs.
    rewrite map_map. now rewrite <- app_assoc.
  - exists (status_width enabled). split; [apply status_width_bounds|].
    unfold feature_list, print_table_text. fold enabled.
    rewrite col_widths_features.
    cbn [padded_cells nth_error concat map].
    unfold feature_rows.
    rewrite (print_rows_two_columns 13 (status_width enabled)
               (feature_status enabled)).
    simpl fs. simpl trace. rewrite Hfs.
    rewrite <- !app_assoc. reflexivity.
Qed.

Lemma feature_list_shows_witness :
  project demo_world demo_state /\
  cmd_feature_list true demo_world =
    (Done 0,
     {| fs := Doc demo_state;
        trace := [Header "Enabled Features"; Stdout "  - crm"] |}).
Proof.
  assert (Hp : project demo_world demo_state) by (split; reflexivity).
  split; [exact Hp|].
  exact (proj1 (feature_list_shows demo_world demo_state Hp)).
Defined.

(* ------------------------------------------------------------------------- *)
(** ** Task numbers *)
(* ------------------------------------------------------------------------- *)

Lemma parse_nat_zeros (k : nat) (s : string) :
  parse_nat (repeat_string "0" k ++ s) = parse_nat s.
Proof.
  induction k as [|k IH]; simpl; [reflexivity|].
  unfold parse_nat in *. simpl.
  destruct (NilEmpty.uint_of_string (repeat_string "0" k ++ s)) as [d|];
    destruct (NilEmpty.uint_of_string s) as [d'|]; simpl in *;
    try discriminate; try reflexivity.
  exact IH.
Qed.

Lemma parse_nat_str_nat (n : nat) : parse_nat (str_nat n) = Some n.
Proof.
  unfold parse_nat, str_nat. rewrite NilEmpty.usu. simpl.
  now rewrite DecimalNat.Unsigned.of_to.
Qed.

Lemma all_below_spec (n : nat) (p : nat -> bool) :
  all_below n p = true -> forall k, (k < n)%nat -> p k = true.
Proof.
  unfold all_below. intros H k Hk.
  apply (proj1 (forallb_forall _ _) H). apply in_seq. lia.
Qed.

Lemma str_nat_three_digits :
  all_below 1000 (fun n => Nat.leb (String.length (str_nat n)) 3) = true.
Proof. vm_compute. reflexivity. Qed.

Lemma parse_nat_format_03d (n : nat) : parse_nat (format_03d n) = Some n.
Proof.
  unfold format_03d. rewrite parse_nat_zeros. apply parse_nat_str_nat.
Qed.

Lemma format_03d_inj (n m : nat) : format_03d n = format_03d m -> n = m.
Proof.
  intros Heq. pose proof (parse_nat_format_03d n) as Hn.
  rewrite Heq, parse_nat_format_03d in Hn. congruence.
Qed.

(** The number of a task id, [f"{n:03d}"], reads back as [n]: task ids made
    from different numbers differ.  The text has at least three characters,
    and exactly three up to 999; from 1000 on it is the plain number. *)
Theorem format_03d_reads_back (n : nat) :
  parse_nat (format_03d n) = Some n /\
  (forall m, format_03d n = format_03d m -> n = m) /\
  (3 <= String.length (format_03d n))%nat /\
  ((n < 1000)%nat -> String.length (format_03d n) = 3%nat) /\
  ((3 <= String.length (str_nat n))%nat -> format_03d n = str_nat n).
Proof.
  assert (Hlen : String.length (format_03d n) =
                 (3 - String.length (str_nat n) + String.length (str_nat n))%nat).
  { unfold format_03d.
    now rewrite String_length_append, length_repeat_char by reflexivity. }
  split; [apply parse_nat_format_03d|]. split; [|split; [|split]].
  - intros m. apply format_03d_inj.
  - lia.
  - intros Hn. pose proof (all_below_spec _ _ str_nat_three_digits n Hn) as H.
    apply Nat.leb_le in H. lia.
  - intros Hge. unfold format_03d.
    replace (3 - String.length (str_nat n))%nat with 0%nat by lia.
    reflexivity.
Qed.

Lemma format_03d_reads_back_witness :
  (7 < 1000)%nat /\ String.length (format_03d 7) = 3%nat.
Proof.
  assert (H : (7 < 1000)%nat) by lia.
  split; [exact H|].
  exact (proj1 (proj2 (proj2 (proj2 (format_03d_reads_back 7)))) H).
Defined.

(* ------------------------------------------------------------------------- *)
(** ** Creating tasks and recording decisions *)
(* ------------------------------------------------------------------------- *)

Lemma Dict_set_set {V : Type} (k : string) (v1 v2 : V) (d : list (string * V)) :
  Dict.set k v2 (Dict.set k v1 d) = Dict.set k v2 d.
Proof.
  induction d as [|[k' v'] r IH]; cbn -[String.eqb].
  - now rewrite String.eqb_refl.
  - destruct (String.eqb k k') eqn:E; cbn -[String.eqb].
    + now rewrite String.eqb_refl.
    + now rewrite E, IH.
Qed.

Lemma set_other_set_other s k v1 v2 :
  set_other (set_other s k v1) k v2 = set_other s k v2.
Proof.
  unfold set_other. cbn [others enabled_features task_locks].
  now rewrite Dict_set_set.
Qed.

Lemma cmd_task_create_project isoformat title description feature priority
    now w state :
  project w state ->
  cmd_task_create isoformat title description feature priority now w =
    task_create isoformat state title description feature priority now w.
Proof.
  intros [Hfs Htr]. unfold cmd_task_create, load_state. now rewrite Hfs, Htr.
Qed.

Lemma cmd_decision_add_project isoformat id title description rationale
    now w state :
  project w state ->
  cmd_decision_add isoformat id title description rationale now w =
    decision_add isoformat state id title description rationale now w.
Proof.
  intros [Hfs Htr]. unfold cmd_decision_add, load_state. now rewrite Hfs, Htr.
Qed.

Lemma list_under_set_other state k l :
  list_under k (set_other state k (JList l)) = Some l.
Proof.
  unfold list_under, set_other. cbn [others]. now rewrite Dict_get_set_same.
Qed.

(** What [task create] does on a project whose [tasks] is a list. *)
Lemma task_create_run isoformat title description feature priority
    now w state l :
  project w state ->
  list_under "tasks" state = Some l ->
  let id := "TASK-" ++ format_03d (List.length l + 1) in
  let task :=
    new_task id title description feature priority (isoformat now) in
  let state' := set_other state "tasks" (JList (l ++ [task])%list) in
  cmd_task_create isoformat title description feature priority now w =
    (Done 0,
     print_success ("Created task " ++ id ++ ": " ++ title)
       (save_state state' w)).
Proof.
  intros Hp Hl id task state'.
  rewrite (cmd_task_create_project _ _ _ _ _ _ _ _ Hp).
  unfold task_create, list_under, Dict.mem in *.
  destruct (Dict.get "tasks" (others state)) as [v|] eqn:E.
  - destruct v as [|b|n|s|l'|d]; try discriminate.
    injection Hl as ->. cbn [py_len negb]. now rewrite E.
  - injection Hl as <-. cbn [py_len negb List.length].
    cbn [set_other others]. rewrite Dict_get_set_same.
    now rewrite set_other_set_other.
Qed.

(** [task create] on a project whose [tasks] key is missing or holds a list
    returns 0 and saves the state in which the new task is appended to that
    list: its id is [TASK-] followed by the number of tasks plus one on three
    digits, its status [pending], its assignee and completion date empty,
    its description [""] and its priority [medium] unless given; the earlier
    tasks, the other keys, the enabled features and the task locks are as
    before.  The id is made from the count alone: no existing id is looked
    at. *)
Theorem task_create_appends isoformat title description feature priority
    now w state l :
  project w state ->
  list_under "tasks" state = Some l ->
  let id := "TASK-" ++ format_03d (List.length l + 1) in
  let task := JDict [ ("id", JStr id);
                      ("title", JStr title);
                      ("description", JStr (or_default description ""));
                      ("status", JStr "pending");
                      ("assignee", JNull);
                      ("feature", json_of_arg feature);
                      ("priority", JStr (or_default priority "medium"));
                      ("created_at", JStr (isoformat now));
                      ("updated_at", JStr (isoformat now));
                      ("completed_at", JNull) ] in
  let state' := set_other state "tasks" (JList (l ++ [task])%list) in
  cmd_task_create isoformat title description feature priority now w =
    (Done 0,
     {| fs := Doc state';
        trace := trace w ++
                 [Saved state';
                  Stdout ("[OK] Created task " ++ id ++ ": " ++ title)] |}) /\
  list_under "tasks" state' = Some (l ++ [task])%list /\
  (forall k, k <> "tasks" ->
     Dict.get k (others state') = Dict.get k (others state)) /\
  enabled_features state' = enabled_features state /\
  task_locks state' = task_locks state.
Proof.
  intros Hp Hl id task state'.
  split; [|split; [apply list_under_set_other|split; [|split; reflexivity]]].
  - rewrite (task_create_run _ _ _ _ _ _ _ _ _ Hp Hl).
    unfold print_success, emit, save_state. simpl.
    now rewrite <- app_assoc.
  - intros k Hk. now apply Dict_get_set_other.
Qed.

Lemma task_create_appends_witness :
  project demo_world demo_state /\
  list_under "tasks" demo_state = Some [] /\
  fst (cmd_task_create demo_isoformat "Build API" None (Some "crm") None T0
         demo_world) = Done 0.
Proof.
  assert (Hp : project demo_world demo_state) by (split; reflexivity).
  split; [exact Hp|]. split; [reflexivity|].
  rewrite (proj1 (task_create_appends demo_isoformat "Build API" None
                    (Some "crm") None T0 demo_world demo_state [] Hp eq_refl)).
  reflexivity.
Defined.

(** [task create] on a project whose [tasks] key holds something that is not
    a list raises and changes nothing: [TypeError], out of [len], for
    [null], a boolean or a number, and [AttributeError], out of [append],
    for a text or an object.  Nothing is printed and nothing is saved. *)
Theorem task_create_needs_a_list isoformat title description feature priority
    now w state v :
  project w state ->
  Dict.get "tasks" (others state) = Some v ->
  (forall l, v <> JList l) ->
  cmd_task_create isoformat title description feature priority now w =
    (Uncaught match v with
              | JStr _ | JDict _ => AttributeError
              | _ => TypeError
              end, w).
Proof.
  intros Hp Hv Hnl. rewrite (cmd_task_create_project _ _ _ _ _ _ _ _ Hp).
  unfold task_create, Dict.mem. rewrite Hv.
  destruct v as [|b|n|s|l|d]; cbn [py_len negb]; try reflexivity.
  - now rewrite Hv.
  - now elim (Hnl l).
  - now rewrite Hv.
Qed.

Lemma task_create_needs_a_list_witness :
  cmd_task_create demo_isoformat "Build API" None None None T0
    {| fs := Doc (set_other demo_state "tasks" JNull); trace := [] |}
  = (Uncaught TypeError,
     {| fs := Doc (set_other demo_state "tasks" JNull); trace := [] |}).
Proof.
  apply (task_create_needs_a_list demo_isoformat "Build API" None None None T0
           {| fs := Doc (set_other demo_state "tasks" JNull); trace := [] |}
           (set_other demo_state "tasks" JNull) JNull).
  - split; reflexivity.
  - reflexivity.
  - discriminate.
Defined.

(** [decision add] on a project whose [decisions] key is missing or holds a
    list returns 0 and saves the state in which the decision is appended to
    that list; the earlier decisions, the other keys, the enabled features
    and the task locks are as before.  The id is not compared with the
    recorded ones: a decision whose id is already there is appended all the
    same.  When the key holds anything but a list the command raises
    [AttributeError] and changes nothing. *)
Theorem decision_add_appends isoformat id title description rationale
    now w state :
  project w state ->
  let decision := JDict [ ("id", JStr id);
                          ("title", JStr title);
                          ("description", JStr description);
                          ("rationale", JStr rationale);
                          ("created_at", JStr (isoformat now)) ] in
  (forall l, list_under "decisions" state = Some l ->
     let state' := set_other state "decisions" (JList (l ++ [decision])%list) in
     cmd_decision_add isoformat id title description rationale now w =
       (Done 0,
        {| fs := Doc state';
           trace := trace w ++
                    [Saved state'; Stdout ("[OK] Added decision " ++ id)] |}) /\
     list_under "decisions" state' = Some (l ++ [decision])%list /\
     (forall k, k <> "decisions" ->
        Dict.get k (others state') = Dict.get k (others state)) /\
     enabled_features state' = enabled_features state /\
     task_locks state' = task_locks state) /\
  (list_under "decisions" state = None ->
     cmd_decision_add isoformat id title description rationale now w =
       (Uncaught AttributeError, w)).
Proof.
  intros Hp decision.
  rewrite (cmd_decision_add_project _ _ _ _ _ _ _ _ Hp).
  unfold decision_add, list_under, Dict.mem.
  destruct (Dict.get "decisions" (others state)) as [v|] eqn:E.
  - cbn [negb]. rewrite E. split.
    + intros l Hl. cbv zeta.
      destruct v as [|b|n|s|l'|d]; try discriminate.
      injection Hl as ->.
      split; [|split; [apply list_under_set_other|split; [|split; reflexivity]]].
      * unfold print_success, emit, save_state. simpl.
        now rewrite <- app_assoc.
      * intros k Hk. now apply Dict_get_set_other.
    + intros Hnone. destruct v as [|b|n|s|l'|d]; try reflexivity.
      discriminate.
  - cbn [negb set_other others]. rewrite Dict_get_set_same. split.
    + intros l Hl. cbv zeta. injection Hl as <-.
      split; [|split; [apply list_under_set_other|split; [|split; reflexivity]]].
      * rewrite set_other_set_other.
        unfold print_success, emit, save_state. simpl.
        now rewrite <- app_assoc.
      * intros k Hk. now apply Dict_get_set_other.
    + discriminate.
Qed.

Lemma decision_add_appends_witness :
  project demo_world demo_state /\
  list_under "decisions" demo_state = Some [] /\
  fst (cmd_decision_add demo_isoformat "D-1" "Use JSON" "One state file"
         "Simple to inspect" T0 demo_world) = Done 0.
Proof.
  assert (Hp : project demo_world demo_state) by (split; reflexivity).
  split; [exact Hp|]. split; [reflexivity|].
  destruct (decision_add_appends demo_isoformat "D-1" "Use JSON"
              "One state file" "Simple to inspect" T0 demo_world demo_state Hp)
    as [Hadd _].
  rewrite (proj1 (Hadd [] eq_refl)). reflexivity.
Defined.

(** Two tasks created one after the other, on a project whose [tasks] is a
    list, both end in the catalog, in the order of creation and after the
    earlier tasks, numbered with the next two numbers; their ids are
    different. *)
Theorem task_create_twice isoformat title1 title2 description1 description2
    feature1 feature2 priority1 priority2 now1 now2 w state l :
  project w state ->
  list_under "tasks" state = Some l ->
  let id1 := "TASK-" ++ format_03d (List.length l + 1) in
  let id2 := "TASK-" ++ format_03d (List.length l + 2) in
  let w1 :=
    snd (cmd_task_create isoformat title1 description1 feature1 priority1
           now1 w) in
  let w2 :=
    snd (cmd_task_create isoformat title2 description2 feature2 priority2
           now2 w1) in
  list_on_disk "tasks" w2 =
    Some (l ++ [ new_task id1 title1 description1 feature1 priority1
                   (isoformat now1);
                 new_task id2 title2 description2 feature2 priority2
                   (isoformat now2) ])%list /\
  id1 <> id2.
Proof.
  intros Hp Hl id1 id2 w1 w2.
  pose proof (task_create_run isoformat title1 description1 feature1
                priority1 now1 w state l Hp Hl) as Hrun1.
  cbv zeta in Hrun1. fold id1 in Hrun1.
  set (task1 := new_task id1 title1 description1 feature1 priority1
                  (isoformat now1)) in *.
  set (state1 := set_other state "tasks" (JList (l ++ [task1])%list)) in *.
  assert (Hp1 : project w1 state1).
  { subst w1. rewrite Hrun1. split; [reflexivity|].
    apply state_truthy_set_other. }
  assert (Hl1 : list_under "tasks" state1 = Some (l ++ [task1])%list)
    by apply list_under_set_other.
  pose proof (task_create_run isoformat title2 description2 feature2
                priority2 now2 w1 state1 _ Hp1 Hl1) as Hrun2.
  cbv zeta in Hrun2.
  replace (List.length (l ++ [task1]) + 1)%nat with (List.length l + 2)%nat
    in Hrun2 by (rewrite length_app; simpl; lia).
  fold id2 in Hrun2. split.
  - subst w2. rewrite Hrun2. unfold list_on_disk. simpl.
    rewrite list_under_set_other. now rewrite <- app_assoc.
  - subst id1 id2. intros Heq.
    assert (H : format_03d (List.length l + 1) = format_03d (List.length l + 2)).
    { now injection Heq. }
    apply format_03d_inj in H. lia.
Qed.

Lemma task_create_twice_witness :
  project demo_world demo_state /\
  list_under "tasks" demo_state = Some [] /\
  "TASK-" ++ format_03d (0 + 1) <> "TASK-" ++ format_03d (0 + 2).
Proof.
  assert (Hp : project demo_world demo_state) by (split; reflexivity).
  split; [exact Hp|]. split; [reflexivity|].
  exact (proj2 (task_create_twice demo_isoformat "Build API" "Write tests"
                  None None None None None None T0 (T0 + 1)
                  demo_world demo_state [] Hp eq_refl)).
Defined.
